(** * Read-only query layer over users and transactions (src/app.py)

    Every handler of [app.py] sends one SQL statement to PostgreSQL and
    returns the rows.  The embedding below gives each statement the meaning
    PostgreSQL gives it, as a function over the two tables, and each handler
    the shape it has in the source: FastAPI checks the declared [Query]
    bounds, the body executes its statement, and the row (or the missing row)
    becomes the response or an [HTTPException].

    Conventions.
    - A table is the list of its rows in the order a sequential scan meets
      them.  That order is no part of the dataset: two lists that are
      permutations of each other hold the same dataset.
    - What SQL leaves to the engine is a field of [Executor], which every
      database carries: the order of rows with equal sort keys (it depends on
      the bound LIMIT + OFFSET of the sort), the order in which groups come
      out of GROUP BY, the scale at which a numeric division is rounded, and
      double precision arithmetic.  A statement about every database is a
      statement about every such choice.
    - [amount] is an exact decimal, a rational here; SUM is exact; the final
      cast of a rounded value to a float is not modelled.
    - A bound LIMIT or OFFSET parameter is a bigint: a larger value makes
      the statement fail, and the request is answered 500.
    - Timestamps are integers (seconds); Python's [int] is [Z].  A date is
      a day number; which day an instant falls on, the instant a number of
      days before NOW() and the order of two dates written as text depend on
      the session (time zone, DateStyle, collation) and are fields of
      [Executor] too. *)

From Stdlib Require Import List ZArith QArith Qround Qabs String Bool Lia Lqa.
From Stdlib Require Import Permutation Sorted.
Import ListNotations.

Open Scope Z_scope.

(** ** Tables *)

Record User := mkUser {
  u_id : Z;
  u_email : string;
  u_created : Z;
  u_updated : Z
}.

Record Transaction := mkTransaction {
  t_id : string;
  t_user_id : Z;
  t_amount : Q;
  t_currency : string;
  t_subid : string;
  t_pending : bool;
  t_paid : bool;
  t_created : Z;
  t_updated : Z
}.

(** ** The engine

    The choices PostgreSQL makes where SQL fixes none.
    - [tie_moves bound]: how the sort with heap bound [bound] (LIMIT + OFFSET,
      or none) arranges the rows it is fed before ordering them; rows with
      equal keys keep the arranged order.  Each number moves the row at that
      position to the front.
    - [group_moves]: the same for the groups of a GROUP BY without ORDER BY.
    - [division_scale s n]: the number of decimals at which the numeric
      quotient [s / n] of AVG is rounded.
    - [to_float8]: the cast of a numeric value to double precision, and
      [float8_lerp lo hi pct]: [lo + pct * (hi - lo)] in double precision.
      Rounding to a double is monotone and leaves a double as it is; adding
      a non-negative product to a double does not go below it.
    - [local_date created]: the day DATE(created) gives in the session's time
      zone; [days_before now days]: NOW() - INTERVAL '1 day' * days, which
      counts calendar days in that time zone; [date_text_leb d1 d2]: whether
      the text of [d1] sorts at or before the text of [d2]. *)
Record Executor := mkExecutor {
  tie_moves : option Z -> list nat;
  group_moves : list nat;
  division_scale : Q -> Z -> nat;
  local_date : Z -> Z;
  days_before : Z -> Z -> Z;
  date_text_leb : Z -> Z -> bool;
  to_float8 : Q -> Q;
  float8_lerp : Q -> Q -> Q -> Q;
  to_float8_mono : forall x y, (x <= y)%Q -> (to_float8 x <= to_float8 y)%Q;
  to_float8_fixed : forall x, (to_float8 (to_float8 x) == to_float8 x)%Q;
  float8_lerp_fixed :
    forall lo hi pct, (to_float8 (float8_lerp lo hi pct) == float8_lerp lo hi pct)%Q;
  float8_lerp_low :
    forall lo hi pct,
      (to_float8 lo == lo)%Q -> (lo <= hi)%Q -> (0 <= pct)%Q ->
      (lo <= float8_lerp lo hi pct)%Q
}.

(** The database one request sees; [now] is the value of NOW(). *)
Record Db := mkDb {
  users : list User;
  transactions : list Transaction;
  now : Z;
  executor : Executor
}.

(** ** SQL building blocks *)

Module Sql.

(** The largest bigint. *)
Definition max_bigint : Z := 9223372036854775807.

Section Relational.
Context {A : Type}.

(** ORDER BY: [leb x y] says that [x] may come before [y].  A row is put
    in front of the first row it may precede, so rows with equal keys keep
    their scan order. *)
Fixpoint insert_sorted (leb : A -> A -> bool) (x : A) (l : list A) : list A :=
  match l with
  | [] => [x]
  | y :: r => if leb x y then x :: y :: r else y :: insert_sorted leb x r
  end.

Fixpoint order_by (leb : A -> A -> bool) (l : list A) : list A :=
  match l with
  | [] => []
  | x :: r => insert_sorted leb x (order_by leb r)
  end.

(** The engine's arrangement of the rows fed to a sort or coming out of a
    grouping: each move takes the row at a position to the front. *)
Definition move_to_front (i : nat) (l : list A) : list A :=
  match nth_error l i with
  | Some x => x :: firstn i l ++ skipn (S i) l
  | None => l
  end.

Definition arrange (moves : list nat) (l : list A) : list A :=
  fold_left (fun rows i => move_to_front i rows) moves l.

(** ORDER BY as the engine runs it. *)
Definition sorted_rows (moves : list nat) (leb : A -> A -> bool) (l : list A) : list A :=
  order_by leb (arrange moves l).

(** LIMIT n.  The handlers only pass values that went through their [Query]
    bounds, 1 to 500 at most. *)
Definition limit (n : Z) (l : list A) : list A := firstn (Z.to_nat n) l.

(** OFFSET n.  The parameter is a bigint: the statement fails on a value
    beyond it, and on a negative one. *)
Definition offset (n : Z) (l : list A) : option (list A) :=
  if (0 <=? n) && (n <=? max_bigint)
  then Some (skipn (Z.to_nat n) l)
  else None.

(** [result.first()] *)
Definition first (l : list A) : option A := hd_error l.

Definition coalesce (o : option A) (d : A) : A :=
  match o with Some v => v | None => d end.

(** COUNT(col): the number of non-null values. *)
Fixpoint count_col (l : list (option A)) : Z :=
  match l with
  | [] => 0
  | Some _ :: r => 1 + count_col r
  | None :: r => count_col r
  end.

(** COUNT( * ) *)
Definition count_star (l : list A) : Z := Z.of_nat (List.length l).
End Relational.

Section Join.
Context {A B : Type}.

(** a LEFT JOIN b ON on(a, b): every left row once per matching right row,
    and once with NULLs on the right when nothing matches. *)
Definition left_join (on : A -> B -> bool) (l : list A) (r : list B)
  : list (A * option B) :=
  flat_map (fun a =>
              match filter (on a) r with
              | [] => [(a, None)]
              | matching => map (fun b => (a, Some b)) matching
              end) l.
End Join.

Section Grouping.
Context {A K : Type} (eqb : K -> K -> bool) (key : A -> K).

(** GROUP BY: a row joins the group of its key, or opens a new group.
    Groups are built in the order their first row was met; the order they
    come out in is the engine's, see [arrange]. *)
Fixpoint add_to_group (a : A) (groups : list (K * list A)) : list (K * list A) :=
  match groups with
  | [] => [(key a, [a])]
  | (k, members) :: g =>
      if eqb (key a) k then (k, members ++ [a]) :: g
      else (k, members) :: add_to_group a g
  end.

Definition group_by (l : list A) : list (K * list A) :=
  fold_left (fun g a => add_to_group a g) l [].
End Grouping.

(** SUM over rationals: NULL when no non-null value was met. *)
Fixpoint sum (l : list (option Q)) : option Q :=
  match l with
  | [] => None
  | None :: r => sum r
  | Some q :: r => Some (match sum r with Some s => q + s | None => q end)%Q
  end.

(** SUM over integers (the CASE ... THEN 1 ELSE 0 counters). *)
Fixpoint sum_int (l : list (option Z)) : option Z :=
  match l with
  | [] => None
  | None :: r => sum_int r
  | Some z :: r => Some (match sum_int r with Some s => z + s | None => z end)
  end.

(** Rounding of a numeric value to [k] decimals, ties away from zero. *)
Definition pow10 (k : nat) : positive := Nat.iter k (Pos.mul 10) 1%positive.

Definition round_at (k : nat) (q : Q) : Q :=
  if Qle_bool 0 q
  then Qmake (Qfloor (q * inject_Z (Zpos (pow10 k)) + (1 # 2))) (pow10 k)
  else Qmake (- Qfloor (- q * inject_Z (Zpos (pow10 k)) + (1 # 2))) (pow10 k).

(** AVG over numeric values: the sum of the non-null values over their
    number, the quotient rounded at the scale the engine selects. *)
Definition avg (scale : Q -> Z -> nat) (l : list (option Q)) : option Q :=
  match sum l with
  | Some s =>
      Some (round_at (scale s (count_col l)) (s / inject_Z (count_col l)))%Q
  | None => None
  end.

(** ROUND(x::numeric, 2): to the nearest hundredth, ties away from zero. *)
Definition round2 (q : Q) : Q :=
  if Qle_bool 0 q
  then Qmake (Qfloor (q * 100 + (1 # 2))) 100
  else Qmake (- Qfloor (- q * 100 + (1 # 2))) 100.

(** CASE WHEN b THEN 1 ELSE 0 END: a NULL condition takes the ELSE branch. *)
Definition case_when_1_else_0 (b : option bool) : option Z :=
  match b with Some true => Some 1 | _ => Some 0 end.

(** Comparison of a nullable key for ORDER BY ... DESC: PostgreSQL sorts NULL
    as larger than every value, so NULLs come first in descending order. *)
Definition desc_nulls_first (a b : option Q) : bool :=
  match a, b with
  | None, _ => true
  | Some _, None => false
  | Some x, Some y => Qle_bool y x
  end.

(** PERCENTILE_CONT(p) WITHIN GROUP (ORDER BY v) over numeric values: the
    values are cast to double precision and sorted ascending; the result is
    the value at position p*(n-1), interpolated in double precision between
    the two neighbours when the position is no integer; NULL on no rows. *)
Definition percentile_cont (cast : Q -> Q) (lerp : Q -> Q -> Q -> Q)
    (p : Q) (values : list Q) : option Q :=
  match values with
  | [] => None
  | _ =>
      let sorted := order_by Qle_bool (map cast values) in
      let pos := (p * inject_Z (Z.of_nat (List.length sorted) - 1))%Q in
      let first_row := Qfloor pos in
      let second_row := Qceiling pos in
      let lo := nth (Z.to_nat first_row) sorted 0%Q in
      let hi := nth (Z.to_nat second_row) sorted 0%Q in
      if first_row =? second_row then Some lo
      else Some (lerp lo hi (pos - inject_Z first_row))%Q
  end.

(** x > (subquery): false when the subquery is NULL. *)
Definition gt_nullable (x : Q) (y : option Q) : bool :=
  match y with
  | Some v => negb (Qle_bool x v)
  | None => false
  end.

End Sql.

(** ** Requests, responses and the handler monad *)

Inductive HTTPException := HTTPError (status_code : Z) (detail : string).

(** The statements a handler can send, one per SQL text of [app.py]. *)
Inductive Statement :=
| SelectUsers
| SelectUserById
| SelectUserTransactions
| SelectTransactions (where_pending where_paid : bool)
| SelectSummary
| SelectUserStats
| SelectDaily
| SelectPending
| SelectTopUsers
| SelectSuspicious
| SelectUnpaid.

(** A handler reads the database and yields a response or an exception,
    together with the statements it executed, in order. *)
Definition Handler (A : Type) : Type :=
  Db -> (HTTPException + A) * list Statement.

Definition ret {A} (a : A) : Handler A := fun _ => (inr a, []).

Definition raise {A} (e : HTTPException) : Handler A := fun _ => (inl e, []).

Definition bind {A B} (m : Handler A) (k : A -> Handler B) : Handler B :=
  fun db =>
    match m db with
    | (inl e, tr) => (inl e, tr)
    | (inr a, tr) => let (r, tr') := k a db in (r, tr ++ tr')
    end.

(** [connection.execute(sqlalchemy.text(query), params)] *)
Definition execute {R} (s : Statement) (q : Db -> R) : Handler R :=
  fun db => (inr (q db), [s]).

(** The same for a statement that can fail: the exception of the driver is
    not caught by the handler, and the request is answered 500. *)
Definition try_execute {R} (s : Statement) (q : Db -> option R) : Handler R :=
  fun db =>
    match q db with
    | Some rows => (inr rows, [s])
    | None => (inl (HTTPError 500 "Internal Server Error"), [s])
    end.

Declare Scope handler_scope.
Delimit Scope handler_scope with handler.
Notation "x <- m ;; k" := (bind m (fun x => k))
  (at level 61, m at next level, right associativity) : handler_scope.
Open Scope handler_scope.

Definition response {A} (r : (HTTPException + A) * list Statement) := fst r.
Definition executed {A} (r : (HTTPException + A) * list Statement) := snd r.

(** [Query(default, ge=.., le=..)]: FastAPI takes the default when the
    parameter is absent and answers 422 when a supplied value is outside the
    declared bounds; the handler body does not run then. *)
Record QueryDecl := Query {
  q_default : Z;
  q_ge : option Z;
  q_le : option Z
}.

Definition within (d : QueryDecl) (v : Z) : bool :=
  match q_ge d with Some lo => lo <=? v | None => true end
  && match q_le d with Some hi => v <=? hi | None => true end.

Definition query_param (d : QueryDecl) (raw : option Z) : Handler Z :=
  match raw with
  | None => ret (q_default d)
  | Some v =>
      if within d v then ret v
      else raise (HTTPError 422 "Unprocessable Entity")
  end.

(** Response models.  [UserResponse] and [TransactionResponse] have the
    columns of their tables, so [User] and [Transaction] stand for them. *)

Record TransactionSummary := mkTransactionSummary {
  ts_total_amount : Q;
  ts_transaction_count : Z;
  ts_average_amount : Q;
  ts_currency : string
}.

Record UserStats := mkUserStats {
  us_user_id : Z;
  us_email : string;
  us_total_amount : Q;
  us_transaction_count : Z;
  us_average_amount : Q;
  us_pending_count : Z;
  us_paid_count : Z
}.

(** [ds_date] is the day number of DATE(created); the total is the
    statement's ROUND(SUM(amount)), which has no COALESCE. *)
Record DailySummary := mkDailySummary {
  ds_date : Z;
  ds_transaction_count : Z;
  ds_total_amount : option Q
}.

Record TopUser := mkTopUser {
  tu_user_id : Z;
  tu_email : string;
  tu_total_amount : Q;
  tu_transaction_count : Z
}.

(** A row of the top-users statement: its total is NULL when SUM met no
    value. *)
Record TopUserRow := mkTopUserRow {
  tr_user_id : Z;
  tr_email : string;
  tr_total_amount : option Q;
  tr_transaction_count : Z
}.

Record SuspiciousTransaction := mkSuspiciousTransaction {
  st_id : string;
  st_user_id : Z;
  st_amount : Q;
  st_reason : string;
  st_created : Z
}.

(** ** The statements *)

Definition by_id_asc (a b : User) : bool := u_id a <=? u_id b.
Definition by_created_desc (a b : Transaction) : bool := t_created b <=? t_created a.
Definition by_amount_desc (a b : SuspiciousTransaction) : bool :=
  Qle_bool (st_amount b) (st_amount a).
Definition by_total_desc (a b : TopUserRow) : bool :=
  Sql.desc_nulls_first (tr_total_amount a) (tr_total_amount b).
Definition by_date_desc (text_leb : Z -> Z -> bool) (a b : DailySummary) : bool :=
  text_leb (ds_date b) (ds_date a).

(** SELECT ... FROM users ORDER BY id LIMIT :limit OFFSET :skip *)
Definition sql_list_users (limit skip : Z) (db : Db) : option (list User) :=
  option_map (Sql.limit limit)
    (Sql.offset skip
       (Sql.sorted_rows (tie_moves (executor db) (Some (limit + skip)))
          by_id_asc (users db))).

(** SELECT ... FROM users WHERE id = :user_id *)
Definition sql_get_user (user_id : Z) (db : Db) : list User :=
  filter (fun u => u_id u =? user_id) (users db).

(** SELECT ... FROM transactions WHERE user_id = :user_id
    ORDER BY created DESC LIMIT :limit *)
Definition sql_user_transactions (user_id limit : Z) (db : Db) : list Transaction :=
  Sql.limit limit
    (Sql.sorted_rows (tie_moves (executor db) (Some limit)) by_created_desc
       (filter (fun t => t_user_id t =? user_id) (transactions db))).

(** SELECT ... FROM transactions {where_clause}
    ORDER BY created DESC LIMIT :limit OFFSET :skip,
    the clauses of [where_clauses] joined by AND. *)
Definition sql_list_transactions (where_clauses : list (Transaction -> bool))
    (limit skip : Z) (db : Db) : option (list Transaction) :=
  option_map (Sql.limit limit)
    (Sql.offset skip
       (Sql.sorted_rows (tie_moves (executor db) (Some (limit + skip)))
          by_created_desc
          (filter (fun t => forallb (fun clause => clause t) where_clauses)
             (transactions db)))).

(** SELECT COALESCE(SUM(amount), 0), COUNT( * ),
           ROUND(COALESCE(AVG(amount), 0)::numeric, 2)::float, currency
    FROM transactions GROUP BY currency LIMIT 1 *)
Definition summary_row (scale : Q -> Z -> nat) (g : string * list Transaction)
  : TransactionSummary :=
  let amounts := map (fun t => Some (t_amount t)) (snd g) in
  {| ts_total_amount := Sql.coalesce (Sql.sum amounts) 0%Q;
     ts_transaction_count := Sql.count_star (snd g);
     ts_average_amount := Sql.round2 (Sql.coalesce (Sql.avg scale amounts) 0%Q);
     ts_currency := fst g |}.

Definition sql_summary (db : Db) : list TransactionSummary :=
  Sql.limit 1
    (Sql.arrange (group_moves (executor db))
       (map (summary_row (division_scale (executor db)))
          (Sql.group_by String.eqb t_currency (transactions db)))).

(** SELECT :user_id, u.email, COALESCE(SUM(t.amount), 0), COUNT(t.id),
           ROUND(COALESCE(AVG(t.amount), 0)::numeric, 2)::float,
           COALESCE(SUM(CASE WHEN t.pending THEN 1 ELSE 0 END), 0),
           COALESCE(SUM(CASE WHEN t.paid THEN 1 ELSE 0 END), 0)
    FROM users u LEFT JOIN transactions t ON u.id = t.user_id
    WHERE u.id = :user_id GROUP BY u.id, u.email *)
Definition user_key (r : User * option Transaction) : Z * string :=
  (u_id (fst r), u_email (fst r)).

Definition user_key_eqb (a b : Z * string) : bool :=
  (fst a =? fst b) && String.eqb (snd a) (snd b).

Definition joined_amounts (members : list (User * option Transaction)) : list (option Q) :=
  map (fun r => option_map t_amount (snd r)) members.

Definition joined_ids (members : list (User * option Transaction)) : list (option string) :=
  map (fun r => option_map t_id (snd r)) members.

Definition user_stats_row (scale : Q -> Z -> nat) (user_id : Z)
    (g : (Z * string) * list (User * option Transaction)) : UserStats :=
  let members := snd g in
  {| us_user_id := user_id;
     us_email := snd (fst g);
     us_total_amount := Sql.coalesce (Sql.sum (joined_amounts members)) 0%Q;
     us_transaction_count := Sql.count_col (joined_ids members);
     us_average_amount :=
       Sql.round2 (Sql.coalesce (Sql.avg scale (joined_amounts members)) 0%Q);
     us_pending_count :=
       Sql.coalesce
         (Sql.sum_int
            (map (fun r => Sql.case_when_1_else_0 (option_map t_pending (snd r)))
               members)) 0;
     us_paid_count :=
       Sql.coalesce
         (Sql.sum_int
            (map (fun r => Sql.case_when_1_else_0 (option_map t_paid (snd r)))
               members)) 0 |}.

Definition users_left_join_transactions (db : Db) : list (User * option Transaction) :=
  Sql.left_join (fun u t => u_id u =? t_user_id t) (users db) (transactions db).

Definition sql_user_stats (user_id : Z) (db : Db) : list UserStats :=
  Sql.arrange (group_moves (executor db))
    (map (user_stats_row (division_scale (executor db)) user_id)
       (Sql.group_by user_key_eqb user_key
          (filter (fun r => u_id (fst r) =? user_id)
             (users_left_join_transactions db)))).

(** SELECT DATE(created)::text, COUNT( * ), ROUND(SUM(amount)::numeric, 2)::float
    FROM transactions WHERE created >= NOW() - INTERVAL '1 day' * :days
    GROUP BY DATE(created) ORDER BY date DESC *)
Definition daily_row (g : Z * list Transaction) : DailySummary :=
  {| ds_date := fst g;
     ds_transaction_count := Sql.count_star (snd g);
     ds_total_amount :=
       option_map Sql.round2 (Sql.sum (map (fun t => Some (t_amount t)) (snd g))) |}.

Definition sql_daily (days : Z) (db : Db) : list DailySummary :=
  Sql.sorted_rows (tie_moves (executor db) None)
    (by_date_desc (date_text_leb (executor db)))
    (map daily_row
       (Sql.group_by Z.eqb (fun t => local_date (executor db) (t_created t))
          (filter (fun t => days_before (executor db) (now db) days <=? t_created t)
             (transactions db)))).

(** SELECT ... FROM transactions WHERE pending = true
    ORDER BY created DESC LIMIT :limit *)
Definition sql_pending (limit : Z) (db : Db) : list Transaction :=
  Sql.limit limit
    (Sql.sorted_rows (tie_moves (executor db) (Some limit)) by_created_desc
       (filter (fun t => Bool.eqb (t_pending t) true) (transactions db))).

(** SELECT u.id, u.email, ROUND(SUM(t.amount)::numeric, 2)::float, COUNT(t.id)
    FROM users u LEFT JOIN transactions t ON u.id = t.user_id
    GROUP BY u.id, u.email ORDER BY total_amount DESC LIMIT :limit *)
Definition top_user_row (g : (Z * string) * list (User * option Transaction)) : TopUserRow :=
  {| tr_user_id := fst (fst g);
     tr_email := snd (fst g);
     tr_total_amount := option_map Sql.round2 (Sql.sum (joined_amounts (snd g)));
     tr_transaction_count := Sql.count_col (joined_ids (snd g)) |}.

Definition sql_top_users (limit : Z) (db : Db) : list TopUserRow :=
  Sql.limit limit
    (Sql.sorted_rows (tie_moves (executor db) (Some limit)) by_total_desc
       (map top_user_row
          (Sql.group_by user_key_eqb user_key (users_left_join_transactions db)))).

(** SELECT id, user_id, amount, 'Large transaction (>90th percentile)', created
    FROM transactions
    WHERE amount > (SELECT PERCENTILE_CONT(0.9) WITHIN GROUP (ORDER BY amount)
                    FROM transactions)
    ORDER BY amount DESC LIMIT :limit *)
Definition suspicious_reason : string := "Large transaction (>90th percentile)".

Definition percentile_90 (db : Db) : option Q :=
  Sql.percentile_cont (to_float8 (executor db)) (float8_lerp (executor db))
    (9 # 10) (map t_amount (transactions db)).

Definition flag (t : Transaction) : SuspiciousTransaction :=
  {| st_id := t_id t;
     st_user_id := t_user_id t;
     st_amount := t_amount t;
     st_reason := suspicious_reason;
     st_created := t_created t |}.

Definition sql_suspicious (limit : Z) (db : Db) : list SuspiciousTransaction :=
  Sql.limit limit
    (Sql.sorted_rows (tie_moves (executor db) (Some limit)) by_amount_desc
       (map flag
          (filter (fun t => Sql.gt_nullable (to_float8 (executor db) (t_amount t))
                              (percentile_90 db))
             (transactions db)))).

(** SELECT ... FROM transactions WHERE pending = false AND paid = false
    ORDER BY created DESC LIMIT :limit *)
Definition is_unpaid (t : Transaction) : bool :=
  Bool.eqb (t_pending t) false && Bool.eqb (t_paid t) false.

Definition sql_unpaid (limit : Z) (db : Db) : list Transaction :=
  Sql.limit limit
    (Sql.sorted_rows (tie_moves (executor db) (Some limit)) by_created_desc
       (filter is_unpaid (transactions db))).

(** ** The handlers *)

Definition limit_100 : QueryDecl := Query 10 (Some 1) (Some 100).
Definition limit_500 : QueryDecl := Query 50 (Some 1) (Some 500).
Definition skip_decl : QueryDecl := Query 0 (Some 0) None.
Definition days_decl : QueryDecl := Query 7 (Some 1) (Some 365).

(** GET /users *)
Definition list_users (skip limit : option Z) : Handler (list User) :=
  skip <- query_param skip_decl skip ;;
  limit <- query_param limit_100 limit ;;
  try_execute SelectUsers (sql_list_users limit skip).

(** GET /users/{user_id} *)
Definition get_user (user_id : Z) : Handler User :=
  result <- execute SelectUserById (sql_get_user user_id) ;;
  match Sql.first result with
  | None => raise (HTTPError 404 "User not found")
  | Some user => ret user
  end.

(** GET /users/{user_id}/transactions *)
Definition get_user_transactions (user_id : Z) (limit : option Z)
  : Handler (list Transaction) :=
  limit <- query_param limit_500 limit ;;
  execute SelectUserTransactions (sql_user_transactions user_id limit).

(** GET /transactions *)
Definition where_clauses_of (pending paid : option bool) : list (Transaction -> bool) :=
  let where_clauses := [] in
  let where_clauses :=
    match pending with
    | Some p => where_clauses ++ [fun t => Bool.eqb (t_pending t) p]
    | None => where_clauses
    end in
  match paid with
  | Some p => where_clauses ++ [fun t => Bool.eqb (t_paid t) p]
  | None => where_clauses
  end.

Definition is_supplied {A} (o : option A) : bool :=
  match o with Some _ => true | None => false end.

Definition list_transactions (skip limit : option Z) (pending paid : option bool)
  : Handler (list Transaction) :=
  skip <- query_param skip_decl skip ;;
  limit <- query_param limit_500 limit ;;
  try_execute (SelectTransactions (is_supplied pending) (is_supplied paid))
    (sql_list_transactions (where_clauses_of pending paid) limit skip).

(** GET /transactions/summary *)
Definition transaction_summary : Handler TransactionSummary :=
  result <- execute SelectSummary sql_summary ;;
  match Sql.first result with
  | None => raise (HTTPError 500 "Failed to fetch summary")
  | Some row => ret row
  end.

(** GET /transactions/user/{user_id}/stats *)
Definition user_transaction_stats (user_id : Z) : Handler UserStats :=
  result <- execute SelectUserStats (sql_user_stats user_id) ;;
  match Sql.first result with
  | None => raise (HTTPError 404 "User not found")
  | Some row => ret row
  end.

(** GET /transactions/daily *)
Definition daily_transaction_summary (days : option Z) : Handler (list DailySummary) :=
  days <- query_param days_decl days ;;
  execute SelectDaily (sql_daily days).

(** GET /transactions/pending *)
Definition get_pending_transactions (limit : option Z) : Handler (list Transaction) :=
  limit <- query_param limit_500 limit ;;
  execute SelectPending (sql_pending limit).

(** GET /reports/top-users.  [response_model=List[TopUser]] declares
    [total_amount: float]: FastAPI validates the returned rows against it and
    answers 500 when a row carries None there. *)
Fixpoint as_top_users (rows : list TopUserRow) : option (list TopUser) :=
  match rows with
  | [] => Some []
  | r :: rest =>
      match tr_total_amount r, as_top_users rest with
      | Some total, Some out =>
          Some (mkTopUser (tr_user_id r) (tr_email r) total (tr_transaction_count r) :: out)
      | _, _ => None
      end
  end.

Definition top_users_by_volume (limit : option Z) : Handler (list TopUser) :=
  limit <- query_param limit_100 limit ;;
  users <- execute SelectTopUsers (sql_top_users limit) ;;
  match as_top_users users with
  | Some out => ret out
  | None => raise (HTTPError 500 "Internal Server Error")
  end.

(** GET /reports/suspicious-transactions *)
Definition suspicious_transactions (limit : option Z)
  : Handler (list SuspiciousTransaction) :=
  limit <- query_param limit_500 limit ;;
  execute SelectSuspicious (sql_suspicious limit).

(** GET /transactions/unpaid *)
Definition unpaid_transactions (limit : option Z) : Handler (list Transaction) :=
  limit <- query_param limit_500 limit ;;
  execute SelectUnpaid (sql_unpaid limit).

(** ** The application: one entry per route *)

Inductive Request :=
| GetUsers (skip limit : option Z)
| GetUser (user_id : Z)
| GetUserTransactions (user_id : Z) (limit : option Z)
| GetTransactions (skip limit : option Z) (pending paid : option bool)
| GetSummary
| GetUserStats (user_id : Z)
| GetDaily (days : option Z)
| GetPending (limit : option Z)
| GetTopUsers (limit : option Z)
| GetSuspicious (limit : option Z)
| GetUnpaid (limit : option Z).

Inductive Response :=
| Users (l : list User)
| OneUser (u : User)
| Transactions (l : list Transaction)
| Summary (s : TransactionSummary)
| Stats (s : UserStats)
| Daily (l : list DailySummary)
| TopUsers (l : list TopUser)
| Suspicious (l : list SuspiciousTransaction).

Definition fmap {A B} (f : A -> B) (m : Handler A) : Handler B :=
  x <- m ;; ret (f x).

Definition app (req : Request) : Handler Response :=
  match req with
  | GetUsers skip limit => fmap Users (list_users skip limit)
  | GetUser user_id => fmap OneUser (get_user user_id)
  | GetUserTransactions user_id limit =>
      fmap Transactions (get_user_transactions user_id limit)
  | GetTransactions skip limit pending paid =>
      fmap Transactions (list_transactions skip limit pending paid)
  | GetSummary => fmap Summary transaction_summary
  | GetUserStats user_id => fmap Stats (user_transaction_stats user_id)
  | GetDaily days => fmap Daily (daily_transaction_summary days)
  | GetPending limit => fmap Transactions (get_pending_transactions limit)
  | GetTopUsers limit => fmap TopUsers (top_users_by_volume limit)
  | GetSuspicious limit => fmap Suspicious (suspicious_transactions limit)
  | GetUnpaid limit => fmap Transactions (unpaid_transactions limit)
  end.

(** ** Notions used in the statements *)

(** The rows the optional filters let through. *)
Definition satisfies (pending paid : option bool) (t : Transaction) : bool :=
  match pending with Some p => Bool.eqb (t_pending t) p | None => true end
  && match paid with Some p => Bool.eqb (t_paid t) p | None => true end.

(** Two scans of one dataset: the same rows, possibly met in another order. *)
Definition same_dataset (db db' : Db) : Prop :=
  Permutation (users db) (users db')
  /\ Permutation (transactions db) (transactions db')
  /\ now db = now db'.

(** ** Sample datasets *)

(** The engine of the samples: sorts and groupings keep the scan order, AVG
    divides at 16 decimals, the session is in UTC with ISO dates, and double
    precision arithmetic is exact (the sample amounts are far enough apart
    for its rounding to change no comparison). *)
Definition exact_lerp (lo hi pct : Q) : Q := (lo + pct * (hi - lo))%Q.

Definition exact_lerp_low :
  forall lo hi pct : Q,
    (lo == lo)%Q -> (lo <= hi)%Q -> (0 <= pct)%Q -> (lo <= exact_lerp lo hi pct)%Q.
Proof. intros lo hi pct _ H1 H2. unfold exact_lerp. nra. Qed.

Definition scan_engine : Executor :=
  {| tie_moves := fun _ => [];
     group_moves := [];
     division_scale := fun _ _ => 16%nat;
     local_date := fun created => created / 86400;
     days_before := fun now days => now - 86400 * days;
     date_text_leb := Z.leb;
     to_float8 := fun x => x;
     float8_lerp := exact_lerp;
     to_float8_mono := fun x y H => H;
     to_float8_fixed := fun x => Qeq_refl x;
     float8_lerp_fixed := fun lo hi pct => Qeq_refl (exact_lerp lo hi pct);
     float8_lerp_low := exact_lerp_low |}.

Definition sample_tx (id : string) (user_id : Z) (amount : Q)
    (pending paid : bool) (created : Z) : Transaction :=
  mkTransaction id user_id amount "USD" "sub" pending paid created created.

Definition alice : User := mkUser 1 "alice@example.com" 10 10.
Definition bob : User := mkUser 2 "bob@example.com" 20 20.

(** Two transactions created in the same second, scanned in either order. *)
Definition tie_a : Transaction := sample_tx "a" 1 5 false false 100.
Definition tie_b : Transaction := sample_tx "b" 2 7 true false 100.
Definition tie_db : Db := mkDb [alice; bob] [tie_a; tie_b] 200 scan_engine.
Definition tie_db' : Db := mkDb [alice; bob] [tie_b; tie_a] 200 scan_engine.

(** Transactions with all four combinations of the two flags. *)
Definition flags_db : Db :=
  mkDb [alice; bob]
    [sample_tx "t1" 1 10 true true 101;
     sample_tx "t2" 1 20 true false 102;
     sample_tx "t3" 2 30 false true 103;
     sample_tx "t4" 2 40 false false 104;
     sample_tx "t5" 2 50 false false 105]
    200 scan_engine.

(** Twelve transactions of amounts 1 to 12: the 90th percentile falls between
    the amounts 10 and 11. *)
Definition numbered_tx (id : string) (n : Z) : Transaction :=
  mkTransaction id 1 (inject_Z n) "USD" "sub" false true n n.

Definition twelve_db : Db :=
  mkDb [alice]
    [numbered_tx "n01" 1; numbered_tx "n02" 2; numbered_tx "n03" 3;
     numbered_tx "n04" 4; numbered_tx "n05" 5; numbered_tx "n06" 6;
     numbered_tx "n07" 7; numbered_tx "n08" 8; numbered_tx "n09" 9;
     numbered_tx "n10" 10; numbered_tx "n11" 11; numbered_tx "n12" 12]
    200 scan_engine.

(** An orphan transaction: its user id has no row in [users]. *)
Definition orphan_tx : Transaction := sample_tx "o1" 5 25 false true 150.
Definition orphan_db : Db := mkDb [alice; bob] [orphan_tx] 200 scan_engine.

(** User 7 with two transactions of 100.005 and 50.00. *)
Definition carol : User := mkUser 7 "carol@example.com" 30 30.

(** A user without transactions next to a user with one. *)
Definition idle_db : Db :=
  mkDb [alice; bob] [sample_tx "b1" 2 10 false true 110] 200 scan_engine.

(** ** Declared parameter ranges

    The inclusive ranges and defaults as the specification lists them: page
    size 1 to 100 (default 10) for users and top users, 1 to 500 (default 50)
    for the transaction listings, 1 to 365 (default 7) for the day window,
    and a non-negative skip (default 0). *)

Definition in_range (lo : Z) (hi : option Z) (raw : option Z) : bool :=
  match raw with
  | None => true
  | Some v => (lo <=? v) && match hi with Some h => v <=? h | None => true end
  end.

Definition declared_in_range (req : Request) : bool :=
  match req with
  | GetUsers skip limit => in_range 0 None skip && in_range 1 (Some 100) limit
  | GetUserTransactions _ limit => in_range 1 (Some 500) limit
  | GetTransactions skip limit _ _ => in_range 0 None skip && in_range 1 (Some 500) limit
  | GetDaily days => in_range 1 (Some 365) days
  | GetPending limit => in_range 1 (Some 500) limit
  | GetTopUsers limit => in_range 1 (Some 100) limit
  | GetSuspicious limit => in_range 1 (Some 500) limit
  | GetUnpaid limit => in_range 1 (Some 500) limit
  | GetUser _ | GetSummary | GetUserStats _ => true
  end.

Definition or_default (d : Z) (raw : option Z) : option Z :=
  match raw with Some v => Some v | None => Some d end.

Definition with_defaults (req : Request) : Request :=
  match req with
  | GetUsers skip limit => GetUsers (or_default 0 skip) (or_default 10 limit)
  | GetUserTransactions user_id limit => GetUserTransactions user_id (or_default 50 limit)
  | GetTransactions skip limit pending paid =>
      GetTransactions (or_default 0 skip) (or_default 50 limit) pending paid
  | GetDaily days => GetDaily (or_default 7 days)
  | GetPending limit => GetPending (or_default 50 limit)
  | GetTopUsers limit => GetTopUsers (or_default 10 limit)
  | GetSuspicious limit => GetSuspicious (or_default 50 limit)
  | GetUnpaid limit => GetUnpaid (or_default 50 limit)
  | GetUser _ | GetSummary | GetUserStats _ => req
  end.

Definition rejected : (HTTPException + Response) * list Statement :=
  (inl (HTTPError 422 "Unprocessable Entity"), []).

(** The rows of a group have the key of the group. *)
Definition rows_share_key {A K} (eqb : K -> K -> bool) (key : A -> K)
    (g : K * list A) : Prop :=
  forall x, In x (snd g) -> eqb (key x) (fst g) = true.

(** ** Proof automation for the routes *)

Ltac split_answers :=
  repeat match goal with
         | |- context [Sql.first ?x] => destruct (Sql.first x)
         | |- context [as_top_users ?x] => destruct (as_top_users x)
         | |- context [sql_list_users ?a ?b ?c] => destruct (sql_list_users a b c)
         | |- context [sql_list_transactions ?w ?a ?b ?c] =>
             destruct (sql_list_transactions w a b c)
         end.

Ltac unfold_route :=
  cbv [app fmap bind ret raise execute try_execute query_param within rejected
       executed response
       list_users get_user get_user_transactions list_transactions
       transaction_summary user_transaction_stats daily_transaction_summary
       get_pending_transactions top_users_by_volume suspicious_transactions
       unpaid_transactions declared_in_range in_range with_defaults or_default
       limit_100 limit_500 skip_decl days_decl q_default q_ge q_le
       andb fst snd app List.app].

Ltac split_bounds :=
  repeat match goal with
         | |- context [?a <=? ?b] =>
             first [ is_var a; destruct (a <=? b)
                   | is_var b; destruct (a <=? b)
                   | let v := eval vm_compute in (a <=? b) in
                     change (a <=? b) with v ]
         end.

(** What GROUP BY has built after reading the rows [seen]: one group per key
    met, holding the rows of that key in scan order. *)
Definition groups_partition {A K} (eqb : K -> K -> bool) (key : A -> K)
    (seen : list A) (groups : list (K * list A)) : Prop :=
  NoDup (map fst groups)
  /\ (forall g, In g groups ->
        snd g = filter (fun x => eqb (key x) (fst g)) seen /\ snd g <> [])
  /\ (forall x, In x seen -> In (key x) (map fst groups)).



(** Two users, each with transactions. *)
Definition active_db : Db :=
  mkDb [alice; bob]
    [sample_tx "a1" 1 10.004 false true 101;
     sample_tx "b1" 2 20 false true 102;
     sample_tx "b2" 2 0.5 true false 103]
    200 scan_engine.

(** Four users met out of id order, with the transactions of [flags_db]. *)
Definition dave : User := mkUser 4 "dave@example.com" 40 40.
Definition crowd_db : Db :=
  mkDb [carol; bob; dave; alice] (transactions flags_db) 200 scan_engine.




(** ** Facts about the building blocks *)

Section OrderByFacts.
Context {A : Type} (leb : A -> A -> bool).

Lemma insert_sorted_perm (x : A) (l : list A) :
  Permutation (Sql.insert_sorted leb x l) (x :: l).
Proof.
  induction l as [|y r IH]; simpl.
  - apply Permutation_refl.
  - destruct (leb x y).
    + apply Permutation_refl.
    + eapply perm_trans; [apply perm_skip, IH | apply perm_swap].
Qed.

Lemma order_by_perm (l : list A) : Permutation (Sql.order_by leb l) l.
Proof.
  induction l as [|x r IH]; simpl.
  - constructor.
  - eapply perm_trans; [apply insert_sorted_perm | apply perm_skip, IH].
Qed.

Lemma order_by_In (l : list A) (x : A) : In x (Sql.order_by leb l) <-> In x l.
Proof.
  split; apply Permutation_in;
    [apply order_by_perm | apply Permutation_sym, order_by_perm].
Qed.

Lemma order_by_length (l : list A) : List.length (Sql.order_by leb l) = List.length l.
Proof. apply Permutation_length, order_by_perm. Qed.

Hypothesis leb_total : forall x y, leb x y = true \/ leb y x = true.
Hypothesis leb_trans : forall x y z, leb x y = true -> leb y z = true -> leb x z = true.

Lemma insert_sorted_sorted (x : A) (l : list A) :
  StronglySorted (fun a b => leb a b = true) l ->
  StronglySorted (fun a b => leb a b = true) (Sql.insert_sorted leb x l).
Proof.
  induction 1 as [|y r Hr IH Hy]; simpl.
  - repeat constructor.
  - destruct (leb x y) eqn:E.
    + constructor; [constructor; assumption|].
      constructor; [exact E|].
      rewrite Forall_forall in *. intros z Hz.
      apply (leb_trans x y z E). now apply Hy.
    + constructor; [exact IH|].
      rewrite Forall_forall in *. intros z Hz.
      apply (Permutation_in _ (insert_sorted_perm x r)) in Hz.
      destruct Hz as [<-|Hz]; [|now apply Hy].
      destruct (leb_total x y) as [H|H]; [congruence | exact H].
Qed.

Lemma order_by_sorted (l : list A) :
  StronglySorted (fun a b => leb a b = true) (Sql.order_by leb l).
Proof.
  induction l; simpl; [constructor | apply insert_sorted_sorted; assumption].
Qed.
End OrderByFacts.

Section ArrangeFacts.
Context {A : Type}.

Lemma nth_error_split_perm (l : list A) (i : nat) (x : A) :
  nth_error l i = Some x ->
  Permutation (x :: firstn i l ++ skipn (S i) l) l.
Proof.
  revert i. induction l as [|a r IH]; intros [|i] H; simpl in *; try discriminate.
  - injection H as ->. apply Permutation_refl.
  - eapply perm_trans; [apply perm_swap|]. apply perm_skip. now apply IH.
Qed.

Lemma move_to_front_perm (i : nat) (l : list A) :
  Permutation (Sql.move_to_front i l) l.
Proof.
  unfold Sql.move_to_front. destruct (nth_error l i) as [x|] eqn:E.
  - now apply nth_error_split_perm.
  - apply Permutation_refl.
Qed.

(** Whatever the engine's moves, the arranged rows are the rows. *)
Lemma arrange_perm (moves : list nat) (l : list A) :
  Permutation (Sql.arrange moves l) l.
Proof.
  unfold Sql.arrange. revert l.
  induction moves as [|i r IH]; intros l; simpl; [apply Permutation_refl|].
  eapply perm_trans; [apply IH | apply move_to_front_perm].
Qed.

Lemma arrange_nil (moves : list nat) : Sql.arrange moves (@nil A) = [].
Proof.
  apply Permutation_nil, Permutation_sym, arrange_perm.
Qed.

Lemma arrange_In (moves : list nat) (l : list A) (x : A) :
  In x (Sql.arrange moves l) <-> In x l.
Proof.
  split; apply Permutation_in;
    [apply arrange_perm | apply Permutation_sym, arrange_perm].
Qed.


Variable leb : A -> A -> bool.

Lemma sorted_rows_perm (moves : list nat) (l : list A) :
  Permutation (Sql.sorted_rows moves leb l) l.
Proof.
  unfold Sql.sorted_rows.
  eapply perm_trans; [apply order_by_perm | apply arrange_perm].
Qed.

Lemma sorted_rows_In (moves : list nat) (l : list A) (x : A) :
  In x (Sql.sorted_rows moves leb l) <-> In x l.
Proof.
  split; apply Permutation_in;
    [apply sorted_rows_perm | apply Permutation_sym, sorted_rows_perm].
Qed.

Lemma sorted_rows_sorted (moves : list nat) (l : list A) :
  (forall x y, leb x y = true \/ leb y x = true) ->
  (forall x y z, leb x y = true -> leb y z = true -> leb x z = true) ->
  StronglySorted (fun a b => leb a b = true) (Sql.sorted_rows moves leb l).
Proof. intros Htot Htr. unfold Sql.sorted_rows. now apply order_by_sorted. Qed.
End ArrangeFacts.

Section SortedUnique.
Context {A : Type} (before : A -> A -> Prop).

(** Two sorted arrangements of the same rows coincide when no two distinct
    rows may precede each other. *)
Lemma sorted_perm_unique (l1 : list A) :
  forall l2,
    (forall x y, In x l1 -> In y l1 -> before x y -> before y x -> x = y) ->
    StronglySorted before l1 -> StronglySorted before l2 ->
    Permutation l1 l2 -> l1 = l2.
Proof.
  induction l1 as [|a r1 IH]; intros l2 Hanti S1 S2 P.
  - apply Permutation_nil in P. now subst.
  - destruct l2 as [|b r2].
    + apply Permutation_sym, Permutation_nil in P. discriminate.
    + inversion S1 as [|? ? S1' F1]; subst.
      inversion S2 as [|? ? S2' F2]; subst.
      rewrite Forall_forall in F1, F2.
      assert (a = b) as ->.
      { assert (Ha : In a (b :: r2)) by (eapply Permutation_in; [exact P | now left]).
        assert (Hb : In b (a :: r1))
          by (eapply Permutation_in; [apply Permutation_sym; exact P | now left]).
        destruct Ha as [->|Ha]; [reflexivity|].
        destruct Hb as [->|Hb]; [reflexivity|].
        apply Hanti; [now left | now right | apply F1; exact Hb | apply F2; exact Ha]. }
      f_equal. apply IH.
      * intros x y Hx Hy. apply Hanti; now right.
      * exact S1'.
      * exact S2'.
      * eapply Permutation_cons_inv; exact P.
Qed.
End SortedUnique.

Lemma filter_perm {A} (f : A -> bool) (l1 l2 : list A) :
  Permutation l1 l2 -> Permutation (filter f l1) (filter f l2).
Proof.
  induction 1; simpl.
  - constructor.
  - destruct (f x); [apply perm_skip|]; assumption.
  - destruct (f x), (f y); try apply Permutation_refl. apply perm_swap.
  - eapply perm_trans; eassumption.
Qed.

(** Ordering by an integer key that no two rows share gives one result for
    every scan order of the same rows. *)
Lemma sorted_rows_key_deterministic {A} (key : A -> Z) (leb : A -> A -> bool)
    (moves1 moves2 : list nat) (l1 l2 : list A) :
  (forall x y, leb x y = true <-> key x <= key y) ->
  NoDup (map key l1) ->
  Permutation l1 l2 ->
  Sql.sorted_rows moves1 leb l1 = Sql.sorted_rows moves2 leb l2.
Proof.
  intros Hleb Hnd P.
  assert (Htot : forall x y, leb x y = true \/ leb y x = true).
  { intros x y. destruct (Z_le_gt_dec (key x) (key y)).
    - left. now apply Hleb.
    - right. apply Hleb. lia. }
  assert (Htr : forall x y z, leb x y = true -> leb y z = true -> leb x z = true).
  { intros x y z H1 H2. apply Hleb. apply Hleb in H1, H2. lia. }
  apply (sorted_perm_unique (fun x y => leb x y = true)).
  - intros x y Hx Hy H1 H2.
    apply sorted_rows_In in Hx, Hy. apply Hleb in H1, H2.
    assert (Hk : key x = key y) by lia.
    clear - Hnd Hx Hy Hk. induction l1 as [|a r IH]; [contradiction|].
    simpl in Hnd. inversion Hnd as [|? ? Hna Hnr]; subst.
    destruct Hx as [Hx|Hx], Hy as [Hy|Hy].
    + congruence.
    + exfalso. apply Hna. subst a. rewrite Hk. now apply in_map.
    + exfalso. apply Hna. subst a. rewrite <- Hk. now apply in_map.
    + now apply IH.
  - now apply sorted_rows_sorted.
  - now apply sorted_rows_sorted.
  - eapply perm_trans; [apply sorted_rows_perm|].
    eapply perm_trans; [exact P | apply Permutation_sym, sorted_rows_perm].
Qed.

Section LimitFacts.
Context {A : Type}.

Lemma limit_length (n : Z) (l : list A) :
  0 <= n -> Z.of_nat (List.length (Sql.limit n l)) <= n.
Proof.
  intros Hn. unfold Sql.limit.
  pose proof (firstn_le_length (Z.to_nat n) l). lia.
Qed.

Lemma limit_In (n : Z) (l : list A) (x : A) : In x (Sql.limit n l) -> In x l.
Proof. unfold Sql.limit. intros H. rewrite <- (firstn_skipn (Z.to_nat n) l). apply in_or_app; now left. Qed.

Lemma offset_within (n : Z) (l : list A) :
  0 <= n <= Sql.max_bigint ->
  Sql.offset n l = Some (skipn (Z.to_nat n) l).
Proof.
  intros H. unfold Sql.offset.
  replace ((0 <=? n) && (n <=? Sql.max_bigint)) with true; [reflexivity|].
  symmetry. apply andb_true_intro. split; apply Z.leb_le; lia.
Qed.

Lemma offset_beyond (n : Z) (l : list A) :
  Sql.max_bigint < n -> Sql.offset n l = None.
Proof.
  intros H. unfold Sql.offset.
  replace (n <=? Sql.max_bigint) with false; [now rewrite andb_false_r|].
  symmetry. apply Z.leb_gt. exact H.
Qed.


Lemma sorted_app_before (R : A -> A -> Prop) (l1 l2 : list A) :
  StronglySorted R (l1 ++ l2) ->
  forall x y, In x l1 -> In y l2 -> R x y.
Proof.
  induction l1 as [|a r IH]; simpl; intros S x y Hx Hy; [contradiction|].
  inversion S as [|? ? S' F]; subst.
  destruct Hx as [->|Hx].
  - rewrite Forall_forall in F. apply F, in_or_app. now right.
  - now apply (IH S').
Qed.

Lemma sorted_impl (R R' : A -> A -> Prop) (l : list A) :
  (forall x y, R x y -> R' x y) -> StronglySorted R l -> StronglySorted R' l.
Proof.
  intros H. induction 1 as [|a r S IH F]; constructor; auto.
  eapply Forall_impl; [|exact F]. intros y. apply H.
Qed.

Lemma sorted_firstn (R : A -> A -> Prop) (n : nat) (l : list A) :
  StronglySorted R l -> StronglySorted R (firstn n l).
Proof.
  intros S. revert n. induction S as [|a r S IH F]; intros [|n]; simpl; try constructor.
  - apply IH.
  - rewrite Forall_forall in *. intros x Hx. apply F.
    rewrite <- (firstn_skipn n r). apply in_or_app. now left.
Qed.


(** A row left out by LIMIT n: the page is full and every row of it sorts
    before the row left out. *)
Lemma limit_keeps_the_first (R : A -> A -> Prop) (n : Z) (l : list A) (x : A) :
  0 <= n -> StronglySorted R l -> In x l ->
  In x (Sql.limit n l)
  \/ (Z.of_nat (List.length (Sql.limit n l)) = n
      /\ forall y, In y (Sql.limit n l) -> R y x).
Proof.
  intros Hn S Hx. unfold Sql.limit.
  rewrite <- (firstn_skipn (Z.to_nat n) l) in Hx, S.
  apply in_app_or in Hx. destruct Hx as [Hx|Hx]; [now left | right].
  split.
  - destruct (Nat.le_gt_cases (Z.to_nat n) (List.length l)) as [Hle|Hgt].
    + rewrite firstn_length_le by exact Hle. lia.
    + rewrite skipn_all2 in Hx by lia. contradiction.
  - intros y Hy. now apply (sorted_app_before R _ _ S).
Qed.

Lemma nth_error_skipn (l : list A) (n : nat) (x : A) :
  nth_error l n = Some x -> exists r, skipn n l = x :: r.
Proof.
  revert n. induction l as [|a r IH]; intros [|n] H; simpl in *; try discriminate.
  - injection H as ->. now exists r.
  - now apply IH.
Qed.
End LimitFacts.

Lemma by_id_asc_spec (a b : User) : by_id_asc a b = true <-> u_id a <= u_id b.
Proof. unfold by_id_asc. apply Z.leb_le. Qed.

Lemma by_created_desc_spec (a b : Transaction) :
  by_created_desc a b = true <-> - t_created a <= - t_created b.
Proof. unfold by_created_desc. rewrite Z.leb_le. lia. Qed.

Lemma by_created_desc_total (a b : Transaction) :
  by_created_desc a b = true \/ by_created_desc b a = true.
Proof. rewrite !by_created_desc_spec. lia. Qed.

Lemma by_created_desc_trans (a b c : Transaction) :
  by_created_desc a b = true -> by_created_desc b c = true -> by_created_desc a c = true.
Proof. rewrite !by_created_desc_spec. lia. Qed.

Lemma by_id_asc_total (a b : User) : by_id_asc a b = true \/ by_id_asc b a = true.
Proof. rewrite !by_id_asc_spec. lia. Qed.

Lemma by_id_asc_trans (a b c : User) :
  by_id_asc a b = true -> by_id_asc b c = true -> by_id_asc a c = true.
Proof. rewrite !by_id_asc_spec. lia. Qed.

Lemma where_clauses_satisfies (pending paid : option bool) (t : Transaction) :
  forallb (fun clause => clause t) (where_clauses_of pending paid) = satisfies pending paid t.
Proof.
  unfold where_clauses_of, satisfies.
  destruct pending, paid; simpl; rewrite ?andb_true_r; reflexivity.
Qed.

Lemma filter_where_clauses (pending paid : option bool) (l : list Transaction) :
  filter (fun t => forallb (fun clause => clause t) (where_clauses_of pending paid)) l
  = filter (satisfies pending paid) l.
Proof. apply filter_ext. intros t. apply where_clauses_satisfies. Qed.

Lemma query_param_within (d : QueryDecl) (v : Z) (db : Db) :
  within d v = true -> query_param d (Some v) db = (inr v, []).
Proof. intros H. unfold query_param. now rewrite H. Qed.

Lemma query_param_outside (d : QueryDecl) (v : Z) (db : Db) :
  within d v = false ->
  query_param d (Some v) db = (inl (HTTPError 422 "Unprocessable Entity"), []).
Proof. intros H. unfold query_param. now rewrite H. Qed.

(** ** Listings: order, bounds and dependence on the scan order *)

Lemma skip_decl_within (skip : Z) : 0 <= skip -> within skip_decl skip = true.
Proof. intros H. unfold within; simpl. rewrite andb_true_r. now apply Z.leb_le. Qed.

Lemma limit_100_within (limit : Z) : 1 <= limit <= 100 -> within limit_100 limit = true.
Proof.
  intros H. unfold within; simpl. apply andb_true_intro; split; apply Z.leb_le; lia.
Qed.

Lemma limit_500_within (limit : Z) : 1 <= limit <= 500 -> within limit_500 limit = true.
Proof.
  intros H. unfold within; simpl. apply andb_true_intro; split; apply Z.leb_le; lia.
Qed.

Lemma list_users_runs (db : Db) (skip limit : Z) :
  0 <= skip <= Sql.max_bigint -> 1 <= limit <= 100 ->
  list_users (Some skip) (Some limit) db
  = (inr (Sql.limit limit
            (skipn (Z.to_nat skip)
               (Sql.sorted_rows (tie_moves (executor db) (Some (limit + skip)))
                  by_id_asc (users db)))),
     [SelectUsers]).
Proof.
  intros Hs Hl. unfold list_users, bind.
  rewrite (query_param_within skip_decl skip) by (apply skip_decl_within; lia).
  rewrite (query_param_within limit_100 limit) by now apply limit_100_within.
  unfold try_execute, sql_list_users. now rewrite offset_within.
Qed.

Lemma list_users_fails (db : Db) (skip limit : Z) :
  Sql.max_bigint < skip -> 1 <= limit <= 100 ->
  list_users (Some skip) (Some limit) db
  = (inl (HTTPError 500 "Internal Server Error"), [SelectUsers]).
Proof.
  intros Hs Hl. unfold list_users, bind.
  rewrite (query_param_within skip_decl skip)
    by (apply skip_decl_within; unfold Sql.max_bigint in Hs; lia).
  rewrite (query_param_within limit_100 limit) by now apply limit_100_within.
  unfold try_execute, sql_list_users. now rewrite offset_beyond.
Qed.

Lemma list_transactions_runs (db : Db) (skip limit : Z) (pending paid : option bool) :
  0 <= skip <= Sql.max_bigint -> 1 <= limit <= 500 ->
  list_transactions (Some skip) (Some limit) pending paid db
  = (inr (Sql.limit limit
            (skipn (Z.to_nat skip)
               (Sql.sorted_rows (tie_moves (executor db) (Some (limit + skip)))
                  by_created_desc
                  (filter (satisfies pending paid) (transactions db))))),
     [SelectTransactions (is_supplied pending) (is_supplied paid)]).
Proof.
  intros Hs Hl. unfold list_transactions, bind.
  rewrite (query_param_within skip_decl skip) by (apply skip_decl_within; lia).
  rewrite (query_param_within limit_500 limit) by now apply limit_500_within.
  unfold try_execute, sql_list_transactions.
  rewrite filter_where_clauses. now rewrite offset_within.
Qed.

Lemma list_transactions_fails (db : Db) (skip limit : Z) (pending paid : option bool) :
  Sql.max_bigint < skip -> 1 <= limit <= 500 ->
  list_transactions (Some skip) (Some limit) pending paid db
  = (inl (HTTPError 500 "Internal Server Error"),
     [SelectTransactions (is_supplied pending) (is_supplied paid)]).
Proof.
  intros Hs Hl. unfold list_transactions, bind.
  rewrite (query_param_within skip_decl skip)
    by (apply skip_decl_within; unfold Sql.max_bigint in Hs; lia).
  rewrite (query_param_within limit_500 limit) by now apply limit_500_within.
  unfold try_execute, sql_list_transactions. now rewrite offset_beyond.
Qed.

Lemma by_id_sorted (moves : list nat) (l : list User) :
  StronglySorted (fun a b => u_id a <= u_id b) (Sql.sorted_rows moves by_id_asc l).
Proof.
  eapply sorted_impl;
    [|apply (sorted_rows_sorted by_id_asc moves l by_id_asc_total by_id_asc_trans)].
  intros a b H. now apply by_id_asc_spec.
Qed.

Lemma by_created_sorted (moves : list nat) (l : list Transaction) :
  StronglySorted (fun a b => t_created b <= t_created a)
    (Sql.sorted_rows moves by_created_desc l).
Proof.
  eapply sorted_impl;
    [|apply (sorted_rows_sorted by_created_desc moves l
               by_created_desc_total by_created_desc_trans)].
  intros a b H. apply by_created_desc_spec in H. lia.
Qed.

Lemma nodup_created_filter (f : Transaction -> bool) (l : list Transaction) :
  NoDup (map t_created l) -> NoDup (map (fun t => - t_created t) (filter f l)).
Proof.
  induction l as [|t r IH]; simpl; intros Hnd; [constructor|].
  inversion Hnd as [|? ? Hn Hr]; subst.
  destruct (f t); [|now apply IH].
  simpl. constructor; [|now apply IH].
  intros Hin. apply Hn. apply in_map_iff in Hin. destruct Hin as (x & Hx & Hin).
  apply filter_In in Hin. apply in_map_iff. exists x. split; [lia | tauto].
Qed.

(** C8, as the code has it.  For a valid [limit] and a [skip] from 0 to the
    largest bigint, the users listing answers with LIMIT/OFFSET applied to
    the users sorted by ascending id, and the transactions listing with
    LIMIT/OFFSET applied to the selected transactions sorted by descending
    [created]; neither holds more than [limit] rows.  The answer is the same
    for every scan order of the dataset and every choice of the engine when
    no two rows share the ordering key (user ids, and [created] values of the
    transactions).  A larger [skip], which the declaration of the parameter
    admits, makes the statement fail: the answer is 500. *)
Theorem listings_bounded_after_ordering (db : Db) (skip limit : Z) :
  0 <= skip -> 1 <= limit ->
  (limit <= 100 ->
   (skip <= Sql.max_bigint ->
    exists ordered,
      Permutation ordered (users db)
      /\ StronglySorted (fun a b => u_id a <= u_id b) ordered
      /\ list_users (Some skip) (Some limit) db
         = (inr (Sql.limit limit (skipn (Z.to_nat skip) ordered)), [SelectUsers])
      /\ Z.of_nat (List.length (Sql.limit limit (skipn (Z.to_nat skip) ordered))) <= limit
      /\ (NoDup (map u_id (users db)) ->
          forall db', same_dataset db db' ->
            list_users (Some skip) (Some limit) db'
            = list_users (Some skip) (Some limit) db))
   /\ (Sql.max_bigint < skip ->
       list_users (Some skip) (Some limit) db
       = (inl (HTTPError 500 "Internal Server Error"), [SelectUsers])))
  /\ (limit <= 500 ->
      forall pending paid,
        (skip <= Sql.max_bigint ->
         exists ordered,
           Permutation ordered (filter (satisfies pending paid) (transactions db))
           /\ StronglySorted (fun a b => t_created b <= t_created a) ordered
           /\ list_transactions (Some skip) (Some limit) pending paid db
              = (inr (Sql.limit limit (skipn (Z.to_nat skip) ordered)),
                 [SelectTransactions (is_supplied pending) (is_supplied paid)])
           /\ Z.of_nat (List.length (Sql.limit limit (skipn (Z.to_nat skip) ordered)))
              <= limit
           /\ (NoDup (map t_created (transactions db)) ->
               forall db', same_dataset db db' ->
                 list_transactions (Some skip) (Some limit) pending paid db'
                 = list_transactions (Some skip) (Some limit) pending paid db))
        /\ (Sql.max_bigint < skip ->
            list_transactions (Some skip) (Some limit) pending paid db
            = (inl (HTTPError 500 "Internal Server Error"),
               [SelectTransactions (is_supplied pending) (is_supplied paid)]))).
Proof.
  intros Hs Hl. split.
  - intros Hu. split; [|intros Hb; apply list_users_fails; lia].
    intros Hb.
    exists (Sql.sorted_rows (tie_moves (executor db) (Some (limit + skip)))
              by_id_asc (users db)).
    split; [apply sorted_rows_perm|].
    split; [apply by_id_sorted|].
    split; [apply list_users_runs; lia|].
    split; [apply limit_length; lia|].
    intros Hnd db' (Pu & _ & _).
    rewrite !list_users_runs by lia.
    now rewrite (sorted_rows_key_deterministic u_id by_id_asc
                   (tie_moves (executor db') (Some (limit + skip)))
                   (tie_moves (executor db) (Some (limit + skip)))
                   (users db') (users db) by_id_asc_spec
                   (Permutation_NoDup (Permutation_map u_id Pu) Hnd)
                   (Permutation_sym Pu)).
  - intros Hu pending paid.
    split; [|intros Hb; apply list_transactions_fails; lia].
    intros Hb.
    exists (Sql.sorted_rows (tie_moves (executor db) (Some (limit + skip)))
              by_created_desc (filter (satisfies pending paid) (transactions db))).
    split; [apply sorted_rows_perm|].
    split; [apply by_created_sorted|].
    split; [apply list_transactions_runs; lia|].
    split; [apply limit_length; lia|].
    intros Hnd db' (_ & Pt & _).
    rewrite !list_transactions_runs by lia.
    rewrite (sorted_rows_key_deterministic (fun t => - t_created t) by_created_desc
               (tie_moves (executor db') (Some (limit + skip)))
               (tie_moves (executor db) (Some (limit + skip)))
               (filter (satisfies pending paid) (transactions db'))
               (filter (satisfies pending paid) (transactions db))).
    + reflexivity.
    + intros x y. apply by_created_desc_spec.
    + apply nodup_created_filter.
      eapply Permutation_NoDup; [apply Permutation_map; exact Pt | exact Hnd].
    + apply filter_perm, Permutation_sym, Pt.
Qed.

Lemma listings_bounded_after_ordering_witness :
  (exists ordered,
     Permutation ordered (users crowd_db)
     /\ StronglySorted (fun a b => u_id a <= u_id b) ordered
     /\ list_users (Some 1) (Some 2) crowd_db
        = (inr (Sql.limit 2 (skipn (Z.to_nat 1) ordered)), [SelectUsers])
     /\ Z.of_nat (List.length (Sql.limit 2 (skipn (Z.to_nat 1) ordered))) <= 2
     /\ (NoDup (map u_id (users crowd_db)) ->
         forall db', same_dataset crowd_db db' ->
           list_users (Some 1) (Some 2) db' = list_users (Some 1) (Some 2) crowd_db))
  /\ (exists ordered,
        Permutation ordered (filter (satisfies None None) (transactions crowd_db))
        /\ StronglySorted (fun a b => t_created b <= t_created a) ordered
        /\ list_transactions (Some 1) (Some 2) None None crowd_db
           = (inr (Sql.limit 2 (skipn (Z.to_nat 1) ordered)),
              [SelectTransactions false false])
        /\ Z.of_nat (List.length (Sql.limit 2 (skipn (Z.to_nat 1) ordered))) <= 2
        /\ (NoDup (map t_created (transactions crowd_db)) ->
            forall db', same_dataset crowd_db db' ->
              list_transactions (Some 1) (Some 2) None None db'
              = list_transactions (Some 1) (Some 2) None None crowd_db))
  /\ list_users (Some 9223372036854775808) (Some 2) crowd_db
     = (inl (HTTPError 500 "Internal Server Error"), [SelectUsers])
  /\ response (list_users (Some 1) (Some 2) crowd_db) = inr [bob; dave]
  /\ response (list_transactions (Some 1) (Some 2) None None crowd_db)
     = inr [sample_tx "t4" 2 40 false false 104; sample_tx "t3" 2 30 false true 103].
Proof.
  split; [|split; [|split; [|split]]].
  - destruct (listings_bounded_after_ordering crowd_db 1 2) as [H _]; [lia | lia |].
    destruct H as [H _]; [lia|]. apply H. unfold Sql.max_bigint. lia.
  - destruct (listings_bounded_after_ordering crowd_db 1 2) as [_ H]; [lia | lia |].
    destruct (H ltac:(lia) None None) as [H' _]. apply H'. unfold Sql.max_bigint. lia.
  - destruct (listings_bounded_after_ordering crowd_db 9223372036854775808 2)
      as [H _]; [lia | lia |].
    destruct H as [_ H]; [lia|]. apply H. unfold Sql.max_bigint. lia.
  - reflexivity.
  - reflexivity.
Defined.

(** C8, as stated, fails: two transactions created in the same second come
    out in the order the scan meets them, so one dataset gives two different
    first pages. *)
Lemma tied_created_page_depends_on_scan :
  same_dataset tie_db tie_db'
  /\ response (list_transactions (Some 0) (Some 1) None None tie_db) = inr [tie_a]
  /\ response (list_transactions (Some 0) (Some 1) None None tie_db') = inr [tie_b]
  /\ tie_a <> tie_b.
Proof.
  split; [|split; [|split]].
  - repeat split; simpl; [apply Permutation_refl | apply perm_swap].
  - reflexivity.
  - reflexivity.
  - discriminate.
Qed.

(** ** The filtered listing *)






(** ** Listings cut by LIMIT only *)

Lemma limit_500_runs (limit : Z) (db : Db) :
  1 <= limit <= 500 -> query_param limit_500 (Some limit) db = (inr limit, []).
Proof. intros H. apply query_param_within. now apply limit_500_within. Qed.

Lemma is_unpaid_iff (t : Transaction) :
  is_unpaid t = true <-> t_pending t = false /\ t_paid t = false.
Proof.
  unfold is_unpaid. rewrite andb_true_iff.
  destruct (t_pending t), (t_paid t); simpl; intuition discriminate.
Qed.

(** The first [limit] of the selected rows, newest first. *)
Lemma newest_first_limit (moves : list nat) (limit : Z) (f : Transaction -> bool)
    (l : list Transaction) :
  1 <= limit ->
  Z.of_nat (List.length (Sql.limit limit (Sql.sorted_rows moves by_created_desc (filter f l))))
  <= limit
  /\ StronglySorted (fun a b => t_created b <= t_created a)
       (Sql.limit limit (Sql.sorted_rows moves by_created_desc (filter f l)))
  /\ (forall t, In t (Sql.limit limit (Sql.sorted_rows moves by_created_desc (filter f l))) ->
        In t l /\ f t = true)
  /\ (forall t, In t l -> f t = true ->
        In t (Sql.limit limit (Sql.sorted_rows moves by_created_desc (filter f l)))
        \/ (Z.of_nat (List.length
                        (Sql.limit limit (Sql.sorted_rows moves by_created_desc (filter f l))))
            = limit
            /\ forall r,
                 In r (Sql.limit limit (Sql.sorted_rows moves by_created_desc (filter f l))) ->
                 t_created t <= t_created r)).
Proof.
  intros Hl.
  split; [apply limit_length; lia|].
  split; [apply sorted_firstn, by_created_sorted|].
  split.
  - intros t Ht. apply limit_In, sorted_rows_In, filter_In in Ht. exact Ht.
  - intros t Hin Hf.
    apply (limit_keeps_the_first (fun a b => t_created b <= t_created a));
      [lia | apply by_created_sorted |].
    apply sorted_rows_In, filter_In. auto.
Qed.

(** C6, as stated, fails: with two unpaid confirmed transactions and
    [limit = 1] the older one is left out. *)
Lemma unpaid_listing_cut_by_limit :
  response (unpaid_transactions (Some 1) flags_db)
  = inr [sample_tx "t5" 2 50 false false 105]
  /\ In (sample_tx "t4" 2 40 false false 104) (transactions flags_db)
  /\ t_pending (sample_tx "t4" 2 40 false false 104) = false
  /\ t_paid (sample_tx "t4" 2 40 false false 104) = false
  /\ ~ In (sample_tx "t4" 2 40 false false 104) [sample_tx "t5" 2 50 false false 105].
Proof.
  split; [reflexivity|]. split; [simpl; tauto|].
  split; [reflexivity|]. split; [reflexivity|].
  intros [H|[]]. discriminate H.
Qed.

(** C6, as the code has it.  The unpaid listing holds only transactions with
    [pending = false] and [paid = false], newest first and at most [limit] of
    them; such a transaction is missing only when the page is full of rows
    created no earlier than it.  A row with [pending = true] never appears. *)
Theorem unpaid_listing_first_limit_rows (db : Db) (limit : Z) :
  1 <= limit <= 500 ->
  exists rows,
    unpaid_transactions (Some limit) db = (inr rows, [SelectUnpaid])
    /\ Z.of_nat (List.length rows) <= limit
    /\ StronglySorted (fun a b => t_created b <= t_created a) rows
    /\ (forall t, In t rows ->
          In t (transactions db) /\ t_pending t = false /\ t_paid t = false)
    /\ (forall t, In t (transactions db) -> t_pending t = false -> t_paid t = false ->
          In t rows
          \/ (Z.of_nat (List.length rows) = limit
              /\ forall r, In r rows -> t_created t <= t_created r)).
Proof.
  intros Hl. exists (sql_unpaid limit db).
  split.
  { unfold unpaid_transactions, bind. now rewrite limit_500_runs. }
  unfold sql_unpaid.
  destruct (newest_first_limit (tie_moves (executor db) (Some limit)) limit
              is_unpaid (transactions db)) as (H1 & H2 & H3 & H4); [lia|].
  split; [exact H1|]. split; [exact H2|]. split.
  - intros t Ht. destruct (H3 t Ht) as [Hin Hu]. apply is_unpaid_iff in Hu. tauto.
  - intros t Hin Hp Hq. apply H4; [exact Hin|]. now apply is_unpaid_iff.
Qed.

Lemma unpaid_listing_first_limit_rows_witness :
  exists rows,
    unpaid_transactions (Some 50) flags_db = (inr rows, [SelectUnpaid])
    /\ Z.of_nat (List.length rows) <= 50
    /\ StronglySorted (fun a b => t_created b <= t_created a) rows
    /\ (forall t, In t rows ->
          In t (transactions flags_db) /\ t_pending t = false /\ t_paid t = false)
    /\ (forall t, In t (transactions flags_db) -> t_pending t = false -> t_paid t = false ->
          In t rows
          \/ (Z.of_nat (List.length rows) = 50
              /\ forall r, In r rows -> t_created t <= t_created r)).
Proof. apply (unpaid_listing_first_limit_rows flags_db 50). lia. Defined.

(** C10, as stated, fails: a transaction may carry a user id that has no row
    in [users], and the listing returns it. *)
Lemma orphan_transactions_are_listed :
  (forall u, In u (users orphan_db) -> u_id u <> 5)
  /\ get_user_transactions 5 (Some 50) orphan_db
     = (inr [orphan_tx], [SelectUserTransactions]).
Proof.
  split; [|reflexivity].
  intros u [<-|[<-|[]]]; discriminate.
Qed.

(** C10, as the code has it.  For a user id without a user row the listing
    answers with success, never Not-Found: it holds only transactions
    carrying that user id, newest first and at most [limit]; such a
    transaction is missing only when the page is full of rows created no
    earlier than it, and the list is empty when there are none.  The users
    table is not read, so the answer is the one an existing user with the
    same transactions would get. *)
Theorem get_user_transactions_ignores_users (db : Db) (user_id limit : Z) :
  1 <= limit <= 500 ->
  (forall u, In u (users db) -> u_id u <> user_id) ->
  exists rows,
    get_user_transactions user_id (Some limit) db = (inr rows, [SelectUserTransactions])
    /\ Z.of_nat (List.length rows) <= limit
    /\ StronglySorted (fun a b => t_created b <= t_created a) rows
    /\ (forall t, In t rows -> In t (transactions db) /\ t_user_id t = user_id)
    /\ (forall t, In t (transactions db) -> t_user_id t = user_id ->
          In t rows
          \/ (Z.of_nat (List.length rows) = limit
              /\ forall r, In r rows -> t_created t <= t_created r))
    /\ ((forall t, In t (transactions db) -> t_user_id t <> user_id) -> rows = [])
    /\ (forall us,
          get_user_transactions user_id (Some limit)
            (mkDb us (transactions db) (now db) (executor db))
          = (inr rows, [SelectUserTransactions])).
Proof.
  intros Hl _. exists (sql_user_transactions user_id limit db).
  split.
  { unfold get_user_transactions, bind. now rewrite limit_500_runs. }
  unfold sql_user_transactions.
  destruct (newest_first_limit (tie_moves (executor db) (Some limit)) limit
              (fun t => t_user_id t =? user_id) (transactions db))
    as (H1 & H2 & H3 & H4); [lia|].
  split; [exact H1|]. split; [exact H2|]. split; [|split; [|split]].
  - intros t Ht. destruct (H3 t Ht) as [Hin He]. apply Z.eqb_eq in He. tauto.
  - intros t Hin He. apply H4; [exact Hin|]. now apply Z.eqb_eq.
  - intros Hnone.
    destruct (Sql.limit limit _) as [|t r] eqn:E; [reflexivity|]. exfalso.
    destruct (H3 t (or_introl eq_refl)) as [Hin He].
    apply Z.eqb_eq in He. now apply (Hnone t Hin).
  - intros us. unfold get_user_transactions, bind. now rewrite limit_500_runs.
Qed.

Lemma get_user_transactions_ignores_users_witness :
  (forall u, In u (users orphan_db) -> u_id u <> 5)
  /\ exists rows,
       get_user_transactions 5 (Some 50) orphan_db = (inr rows, [SelectUserTransactions])
       /\ Z.of_nat (List.length rows) <= 50
       /\ StronglySorted (fun a b => t_created b <= t_created a) rows
       /\ (forall t, In t rows -> In t (transactions orphan_db) /\ t_user_id t = 5)
       /\ (forall t, In t (transactions orphan_db) -> t_user_id t = 5 ->
             In t rows
             \/ (Z.of_nat (List.length rows) = 50
                 /\ forall r, In r rows -> t_created t <= t_created r))
       /\ ((forall t, In t (transactions orphan_db) -> t_user_id t <> 5) -> rows = [])
       /\ (forall us,
             get_user_transactions 5 (Some 50)
               (mkDb us (transactions orphan_db) (now orphan_db) (executor orphan_db))
             = (inr rows, [SelectUserTransactions])).
Proof.
  assert (H : forall u, In u (users orphan_db) -> u_id u <> 5).
  { intros u [<-|[<-|[]]]; discriminate. }
  split; [exact H|].
  apply (get_user_transactions_ignores_users orphan_db 5 50); [lia | exact H].
Defined.

(** ** Suspicious transactions *)

Lemma by_amount_desc_spec (a b : SuspiciousTransaction) :
  by_amount_desc a b = true <-> (st_amount b <= st_amount a)%Q.
Proof. unfold by_amount_desc. apply Qle_bool_iff. Qed.

Lemma by_amount_desc_total (a b : SuspiciousTransaction) :
  by_amount_desc a b = true \/ by_amount_desc b a = true.
Proof.
  rewrite !by_amount_desc_spec.
  destruct (Qlt_le_dec (st_amount a) (st_amount b)) as [H|H].
  - right. now apply Qlt_le_weak.
  - now left.
Qed.

Lemma by_amount_desc_trans (a b c : SuspiciousTransaction) :
  by_amount_desc a b = true -> by_amount_desc b c = true -> by_amount_desc a c = true.
Proof.
  rewrite !by_amount_desc_spec. intros H1 H2. eapply Qle_trans; eassumption.
Qed.

Lemma by_amount_sorted (moves : list nat) (l : list SuspiciousTransaction) :
  StronglySorted (fun a b => (st_amount b <= st_amount a)%Q)
    (Sql.sorted_rows moves by_amount_desc l).
Proof.
  eapply sorted_impl;
    [|apply (sorted_rows_sorted by_amount_desc moves l
               by_amount_desc_total by_amount_desc_trans)].
  intros a b H. now apply by_amount_desc_spec.
Qed.

Lemma gt_nullable_iff (x : Q) (y : option Q) :
  Sql.gt_nullable x y = true <-> exists v, y = Some v /\ (v < x)%Q.
Proof.
  unfold Sql.gt_nullable. destruct y as [v|].
  - rewrite negb_true_iff. split.
    + intros H. exists v. split; [reflexivity|].
      apply Qnot_le_lt. intros Hle. apply Qle_bool_iff in Hle. congruence.
    + intros (w & [= <-] & Hlt).
      destruct (Qle_bool x v) eqn:E; [|reflexivity].
      apply Qle_bool_iff in E. exfalso. eapply Qlt_not_le; eassumption.
  - split; [discriminate | intros (v & H & _); discriminate].
Qed.

Lemma Qle_bool_total (a b : Q) : Qle_bool a b = true \/ Qle_bool b a = true.
Proof.
  rewrite !Qle_bool_iff. destruct (Qlt_le_dec a b) as [H|H].
  - left. now apply Qlt_le_weak.
  - now right.
Qed.

Lemma Qle_bool_trans (a b c : Q) :
  Qle_bool a b = true -> Qle_bool b c = true -> Qle_bool a c = true.
Proof. rewrite !Qle_bool_iff. apply Qle_trans. Qed.

Lemma nth_sorted_le (l : list Q) :
  StronglySorted (fun a b => Qle_bool a b = true) l ->
  forall i j, (i <= j)%nat -> (j < List.length l)%nat ->
              (nth i l 0 <= nth j l 0)%Q.
Proof.
  induction 1 as [|a r S IH F]; intros i j Hij Hj; simpl in Hj; [lia|].
  destruct i as [|i], j as [|j]; simpl; try lia.
  - apply Qle_refl.
  - rewrite Forall_forall in F. apply Qle_bool_iff, F, nth_In. lia.
  - apply IH; lia.
Qed.

(** PERCENTILE_CONT(p) for p between 0 and 1 over a non-empty list is a
    double, and not below the double of one of the values. *)
Lemma percentile_cont_above (ex : Executor) (p : Q) (values : list Q) :
  (0 <= p)%Q -> (p <= 1)%Q -> values <> [] ->
  exists v lo,
    Sql.percentile_cont (to_float8 ex) (float8_lerp ex) p values = Some v
    /\ In lo values
    /\ (to_float8 ex lo <= v)%Q
    /\ (to_float8 ex v == v)%Q.
Proof.
  intros Hp0 Hp1 Hne. unfold Sql.percentile_cont.
  destruct values as [|x xs] eqn:Ev; [congruence|]. rewrite <- Ev in *. clear Hne.
  set (sorted := Sql.order_by Qle_bool (map (to_float8 ex) values)).
  assert (Hlen : (1 <= List.length sorted)%nat).
  { unfold sorted. rewrite order_by_length, length_map, Ev. simpl. lia. }
  assert (Hsorted : StronglySorted (fun a b => Qle_bool a b = true) sorted)
    by apply (order_by_sorted Qle_bool Qle_bool_total Qle_bool_trans).
  assert (Hmem : forall v, In v sorted ->
                   exists lo, In lo values /\ v = to_float8 ex lo).
  { intros v Hv. unfold sorted in Hv. rewrite order_by_In in Hv.
    apply in_map_iff in Hv.
    destruct Hv as (lo & <- & Hlo). now exists lo. }
  clearbody sorted.
  remember (Z.of_nat (List.length sorted) - 1) as n1 eqn:En1.
  set (pos := (p * inject_Z n1)%Q).
  assert (Hn1 : (0 <= inject_Z n1)%Q).
  { change 0%Q with (inject_Z 0). rewrite <- Zle_Qle. lia. }
  assert (Hpos0 : (0 <= pos)%Q) by (unfold pos; nra).
  assert (Hposn : (pos <= inject_Z n1)%Q) by (unfold pos; nra).
  clearbody pos.
  pose proof (Qfloor_le pos) as Hf1.
  pose proof (Qle_ceiling pos) as Hc1.
  assert (Hf0 : 0 <= Qfloor pos).
  { change 0 with (Qfloor 0). now apply Qfloor_resp_le. }
  assert (Hcn : Qceiling pos <= n1).
  { rewrite <- (Qceiling_Z n1). now apply Qceiling_resp_le. }
  assert (Hfc : Qfloor pos <= Qceiling pos).
  { rewrite Zle_Qle. eapply Qle_trans; eassumption. }
  assert (Hlohi : (nth (Z.to_nat (Qfloor pos)) sorted 0
                   <= nth (Z.to_nat (Qceiling pos)) sorted 0)%Q).
  { apply nth_sorted_le; [exact Hsorted | lia | lia]. }
  destruct (Hmem (nth (Z.to_nat (Qfloor pos)) sorted 0%Q)) as (lo & Hlo & Elo).
  { apply nth_In. lia. }
  assert (Hfix : (to_float8 ex (nth (Z.to_nat (Qfloor pos)) sorted 0)
                  == nth (Z.to_nat (Qfloor pos)) sorted 0)%Q).
  { rewrite Elo. apply to_float8_fixed. }
  destruct (Qfloor pos =? Qceiling pos) eqn:E.
  - eexists. exists lo. split; [reflexivity|]. split; [exact Hlo|].
    split; [rewrite Elo; apply Qle_refl | exact Hfix].
  - eexists. exists lo. split; [reflexivity|]. split; [exact Hlo|].
    split; [|apply float8_lerp_fixed].
    rewrite <- Elo. apply float8_lerp_low; [exact Hfix | exact Hlohi |].
    lra.
Qed.

(** What the statement selects: the transactions whose double exceeds the
    percentile; their amounts exceed it too. *)
Lemma suspicious_rows (db : Db) (limit : Z) (r : SuspiciousTransaction) :
  In r (sql_suspicious limit db) ->
  exists t p,
    In t (transactions db) /\ r = flag t
    /\ percentile_90 db = Some p
    /\ (p < to_float8 (executor db) (t_amount t))%Q
    /\ (p < t_amount t)%Q
    /\ exists lowest, In lowest (transactions db)
                      /\ (to_float8 (executor db) (t_amount lowest) <= p)%Q.
Proof.
  intros Hr. unfold sql_suspicious in Hr.
  apply limit_In, sorted_rows_In, in_map_iff in Hr.
  destruct Hr as (t & <- & Ht). apply filter_In in Ht.
  destruct Ht as [Hin Hgt]. apply gt_nullable_iff in Hgt.
  destruct Hgt as (p & Hp & Hlt).
  destruct (percentile_cont_above (executor db) (9 # 10) (map t_amount (transactions db)))
    as (v & lo & Hv & Hlo & Hlov & Hfix).
  - discriminate.
  - discriminate.
  - intros E. apply map_eq_nil in E. rewrite E in Hin. contradiction.
  - unfold percentile_90 in Hp. rewrite Hv in Hp. injection Hp as <-.
    exists t, v. split; [exact Hin|]. split; [reflexivity|].
    split; [exact Hv|]. split; [exact Hlt|]. split.
    + apply Qnot_le_lt. intros Hle.
      apply (to_float8_mono (executor db)) in Hle. rewrite Hfix in Hle.
      eapply Qlt_not_le; eassumption.
    + apply in_map_iff in Hlo. destruct Hlo as (t0 & <- & Ht0). now exists t0.
Qed.

(** C5, as stated, fails: of twelve transactions with amounts 1 to 12 the
    90th percentile lies between 10 and 11; the amounts 11 and 12 exceed it
    and are both returned for [limit = 50], and for [limit = 1] only the one
    of amount 12 is. *)
Lemma suspicious_listing_cut_by_limit :
  (exists p, percentile_90 twelve_db = Some p /\ (10 < p)%Q /\ (p < 11)%Q)
  /\ In (numbered_tx "n11" 11) (transactions twelve_db)
  /\ response (suspicious_transactions (Some 50) twelve_db)
     = inr [flag (numbered_tx "n12" 12); flag (numbered_tx "n11" 11)]
  /\ response (suspicious_transactions (Some 1) twelve_db)
     = inr [flag (numbered_tx "n12" 12)]
  /\ ~ In (flag (numbered_tx "n11" 11)) [flag (numbered_tx "n12" 12)].
Proof.
  split; [eexists; split; [vm_compute; reflexivity | split; reflexivity]|].
  split; [simpl; tauto|].
  split; [reflexivity|].
  split; [reflexivity|].
  intros [H|[]]. discriminate H.
Qed.

(** C5, as the code has it.  The percentile is computed, and compared, in
    double precision.  Every returned row is a transaction whose amount, as
    a double and as it is, strictly exceeds the 90th percentile of all
    amounts, tagged with the fixed reason; rows come in descending amount, at
    most [limit] of them; a transaction whose double exceeds the percentile
    is missing only when the page is full of rows of at least its amount. *)
Theorem suspicious_listing_first_limit_rows (db : Db) (limit : Z) :
  1 <= limit <= 500 ->
  exists rows,
    suspicious_transactions (Some limit) db = (inr rows, [SelectSuspicious])
    /\ Z.of_nat (List.length rows) <= limit
    /\ StronglySorted (fun a b => (st_amount b <= st_amount a)%Q) rows
    /\ (forall r, In r rows ->
          st_reason r = "Large transaction (>90th percentile)"%string
          /\ exists t p,
               In t (transactions db) /\ r = flag t
               /\ percentile_90 db = Some p
               /\ (p < to_float8 (executor db) (t_amount t))%Q
               /\ (p < t_amount t)%Q)
    /\ (forall t p, In t (transactions db) ->
          percentile_90 db = Some p ->
          (p < to_float8 (executor db) (t_amount t))%Q ->
          In (flag t) rows
          \/ (Z.of_nat (List.length rows) = limit
              /\ forall r, In r rows -> (t_amount t <= st_amount r)%Q)).
Proof.
  intros Hl. exists (sql_suspicious limit db).
  split.
  { unfold suspicious_transactions, bind. now rewrite limit_500_runs. }
  split; [unfold sql_suspicious; apply limit_length; lia|].
  split; [unfold sql_suspicious; apply sorted_firstn, by_amount_sorted|].
  split.
  - intros r Hr.
    destruct (suspicious_rows db limit r Hr) as (t & p & Hin & -> & Hp & H1 & H2 & _).
    split; [reflexivity|]. exists t, p. auto.
  - intros t p Hin Hp Hlt. unfold sql_suspicious.
    apply (limit_keeps_the_first (fun a b => (st_amount b <= st_amount a)%Q) limit _ (flag t));
      [lia | apply by_amount_sorted |].
    apply sorted_rows_In, in_map, filter_In. split; [exact Hin|].
    apply gt_nullable_iff. now exists p.
Qed.

Lemma suspicious_listing_first_limit_rows_witness :
  exists rows,
    suspicious_transactions (Some 1) twelve_db = (inr rows, [SelectSuspicious])
    /\ Z.of_nat (List.length rows) <= 1
    /\ StronglySorted (fun a b => (st_amount b <= st_amount a)%Q) rows
    /\ (forall r, In r rows ->
          st_reason r = "Large transaction (>90th percentile)"%string
          /\ exists t p,
               In t (transactions twelve_db) /\ r = flag t
               /\ percentile_90 twelve_db = Some p
               /\ (p < to_float8 (executor twelve_db) (t_amount t))%Q
               /\ (p < t_amount t)%Q)
    /\ (forall t p, In t (transactions twelve_db) ->
          percentile_90 twelve_db = Some p ->
          (p < to_float8 (executor twelve_db) (t_amount t))%Q ->
          In (flag t) rows
          \/ (Z.of_nat (List.length rows) = 1
              /\ forall r, In r rows -> (t_amount t <= st_amount r)%Q)).
Proof. apply (suspicious_listing_first_limit_rows twelve_db 1). lia. Defined.

(** ** Joins and groups *)

Section JoinFacts.
Context {A B : Type} (on : A -> B -> bool).

Lemma left_join_In (l : list A) (r : list B) (a : A) (ob : option B) :
  In (a, ob) (Sql.left_join on l r) ->
  In a l
  /\ match ob with
     | Some b => In b r /\ on a b = true
     | None => filter (on a) r = []
     end.
Proof.
  unfold Sql.left_join. rewrite in_flat_map. intros (a' & Ha' & Hin).
  destruct (filter (on a') r) as [|b0 m] eqn:E.
  - destruct Hin as [[= <- <-]|[]]. auto.
  - rewrite <- E in Hin. apply in_map_iff in Hin.
    destruct Hin as (b & [= <- <-] & Hb). apply filter_In in Hb. auto.
Qed.

Lemma left_join_unmatched (l : list A) (r : list B) (a : A) :
  In a l -> filter (on a) r = [] -> In (a, None) (Sql.left_join on l r).
Proof.
  intros Ha E. unfold Sql.left_join. apply in_flat_map.
  exists a. split; [exact Ha|]. rewrite E. now left.
Qed.
End JoinFacts.

Section GroupFacts.
Context {A K : Type} (eqb : K -> K -> bool) (key : A -> K).

Lemma add_to_group_members (a : A) (groups : list (K * list A)) (g : K * list A) (x : A) :
  In g (Sql.add_to_group eqb key a groups) -> In x (snd g) ->
  x = a \/ exists g', In g' groups /\ In x (snd g').
Proof.
  induction groups as [|[k members] rest IH]; simpl.
  - intros [<-|[]] [<-|[]]. now left.
  - destruct (eqb (key a) k).
    + intros [<-|Hg] Hx.
      * simpl in Hx. apply in_app_or in Hx. destruct Hx as [Hx|[<-|[]]].
        -- right. exists (k, members). auto.
        -- now left.
      * right. exists g. auto.
    + intros [<-|Hg] Hx.
      * right. exists (k, members). auto.
      * destruct (IH Hg Hx) as [->|(g' & Hg' & Hx')]; [now left|].
        right. exists g'. auto.
Qed.

Lemma add_to_group_not_nil (a : A) (groups : list (K * list A)) :
  Sql.add_to_group eqb key a groups <> [].
Proof.
  destruct groups as [|[k members] rest]; simpl; [discriminate|].
  destruct (eqb (key a) k); discriminate.
Qed.

Lemma fold_groups_members (l : list A) :
  forall acc g x,
    In g (fold_left (fun g a => Sql.add_to_group eqb key a g) l acc) ->
    In x (snd g) ->
    In x l \/ exists g', In g' acc /\ In x (snd g').
Proof.
  induction l as [|a r IH]; simpl; intros acc g x Hg Hx.
  - right. exists g. auto.
  - destruct (IH _ _ _ Hg Hx) as [H|(g' & Hg' & Hx')]; [auto|].
    destruct (add_to_group_members _ _ _ _ Hg' Hx') as [->|H]; auto.
Qed.

Lemma fold_groups_not_nil (l : list A) :
  forall acc, acc <> [] ->
    fold_left (fun g a => Sql.add_to_group eqb key a g) l acc <> [].
Proof.
  induction l as [|a r IH]; simpl; intros acc H; [exact H|].
  apply IH, add_to_group_not_nil.
Qed.

(** Every member of a group is a row of the grouped list. *)
Lemma group_by_members (l : list A) (g : K * list A) (x : A) :
  In g (Sql.group_by eqb key l) -> In x (snd g) -> In x l.
Proof.
  intros Hg Hx. destruct (fold_groups_members l [] g x Hg Hx) as [H|(g' & [] & _)].
  exact H.
Qed.

(** GROUP BY leaves no group exactly when there is no row. *)
Lemma group_by_not_nil (l : list A) : l <> [] -> Sql.group_by eqb key l <> [].
Proof.
  destruct l as [|a r]; [congruence|]. intros _. unfold Sql.group_by. simpl.
  apply fold_groups_not_nil. discriminate.
Qed.
End GroupFacts.

Lemma filter_nil_iff {A} (f : A -> bool) (l : list A) :
  filter f l = [] <-> forall x, In x l -> f x = false.
Proof.
  induction l as [|a r IH]; simpl.
  - split; [intros _ x [] | reflexivity].
  - destruct (f a) eqn:E.
    + split; [discriminate|]. intros H. specialize (H a (or_introl eq_refl)). congruence.
    + rewrite IH. split.
      * intros H x [<-|Hx]; auto.
      * intros H x Hx. apply H. now right.
Qed.

Lemma sum_all_null (l : list (option Q)) :
  (forall o, In o l -> o = None) -> Sql.sum l = None.
Proof.
  induction l as [|[q|] r IH]; simpl; intros H; [reflexivity| |].
  - specialize (H (Some q) (or_introl eq_refl)). discriminate.
  - apply IH. intros o Ho. apply H. now right.
Qed.

Lemma count_col_all_null {A} (l : list (option A)) :
  (forall o, In o l -> o = None) -> Sql.count_col l = 0.
Proof.
  induction l as [|[q|] r IH]; simpl; intros H; [reflexivity| |].
  - specialize (H (Some q) (or_introl eq_refl)). discriminate.
  - apply IH. intros o Ho. apply H. now right.
Qed.

Lemma sum_int_all_zero (l : list (option Z)) :
  (forall o, In o l -> o = Some 0) -> Sql.coalesce (Sql.sum_int l) 0 = 0.
Proof.
  induction l as [|o r IH]; simpl; intros H; [reflexivity|].
  rewrite (H o (or_introl eq_refl)).
  assert (IH' : Sql.coalesce (Sql.sum_int r) 0 = 0) by (apply IH; intros; apply H; now right).
  destruct (Sql.sum_int r); simpl in *; [now rewrite IH' | reflexivity].
Qed.

(** ** GROUP BY partitions the rows *)

Section GroupPartition.
Context {A K : Type} (eqb : K -> K -> bool) (key : A -> K).
Hypothesis eqb_eq : forall a b, eqb a b = true <-> a = b.

Lemma eqb_neq_false (a b : K) : eqb a b = false <-> a <> b.
Proof.
  split.
  - intros H E. apply eqb_eq in E. congruence.
  - intros H. destruct (eqb a b) eqn:E; [|reflexivity].
    apply eqb_eq in E. contradiction.
Qed.

Lemma add_to_group_keys (a : A) (groups : list (K * list A)) :
  map fst (Sql.add_to_group eqb key a groups)
  = if existsb (eqb (key a)) (map fst groups)
    then map fst groups
    else map fst groups ++ [key a].
Proof.
  induction groups as [|[k m] rest IH]; simpl; [reflexivity|].
  destruct (eqb (key a) k); simpl; [reflexivity|].
  rewrite IH. destruct (existsb (eqb (key a)) (map fst rest)); reflexivity.
Qed.

Lemma add_to_group_In (a : A) (groups : list (K * list A)) (g : K * list A) :
  NoDup (map fst groups) ->
  In g (Sql.add_to_group eqb key a groups) ->
  (exists m, In (fst g, m) groups
             /\ snd g = m ++ (if eqb (key a) (fst g) then [a] else []))
  \/ (g = (key a, [a]) /\ existsb (eqb (key a)) (map fst groups) = false).
Proof.
  induction groups as [|[k m] rest IH]; simpl; intros Hnd Hg.
  - destruct Hg as [<-|[]]. now right.
  - inversion Hnd as [|? ? Hk Hrest]; subst.
    destruct (eqb (key a) k) eqn:E.
    + left. destruct Hg as [<-|Hg]; simpl.
      * exists m. rewrite E. auto.
      * destruct g as [k' m']. exists m'. split; [now right|]. simpl.
        assert (Hne : k' <> k).
        { intros ->. apply Hk. change k with (fst (k, m')). now apply in_map. }
        apply eqb_eq in E. subst k.
        replace (eqb (key a) k') with false; [now rewrite app_nil_r|].
        symmetry. apply eqb_neq_false. congruence.
    + destruct Hg as [<-|Hg]; simpl.
      * left. exists m. rewrite E, app_nil_r. auto.
      * destruct (IH Hrest Hg) as [(m' & Hin & Hs)|[-> Hex]].
        -- left. exists m'. auto.
        -- right. auto.
Qed.

Lemma add_to_group_partition (a : A) (seen : list A) (groups : list (K * list A)) :
  groups_partition eqb key seen groups ->
  groups_partition eqb key (seen ++ [a]) (Sql.add_to_group eqb key a groups).
Proof.
  intros (Hnd & Hcontent & Hcover). split; [|split].
  - rewrite add_to_group_keys.
    destruct (existsb (eqb (key a)) (map fst groups)) eqn:E; [exact Hnd|].
    apply NoDup_app; [exact Hnd | repeat constructor; intros [] | ].
    intros k Hk [<-|[]].
    assert (existsb (eqb (key a)) (map fst groups) = true); [|congruence].
    apply existsb_exists. exists (key a). split; [exact Hk | now apply eqb_eq].
  - intros g Hg. rewrite filter_app. simpl.
    destruct (add_to_group_In a groups g Hnd Hg) as [(m & Hin & Hs)|[-> Hex]].
    + destruct (Hcontent _ Hin) as [Hm Hne]. simpl in Hm, Hne.
      rewrite Hs, Hm. split.
      * destruct (eqb (key a) (fst g)); reflexivity.
      * rewrite <- Hm. intros E. apply app_eq_nil in E. tauto.
    + simpl. rewrite (proj2 (eqb_eq (key a) (key a)) eq_refl). split; [|discriminate].
      replace (filter (fun x => eqb (key x) (key a)) seen) with (@nil A); [reflexivity|].
      symmetry. apply filter_nil_iff. intros x Hx. apply eqb_neq_false. intros E.
      assert (existsb (eqb (key a)) (map fst groups) = true); [|congruence].
      apply existsb_exists. exists (key x). split; [now apply Hcover|].
      apply eqb_eq. congruence.
  - intros x Hx. rewrite add_to_group_keys.
    apply in_app_or in Hx.
    destruct (existsb (eqb (key a)) (map fst groups)) eqn:E.
    + destruct Hx as [Hx|[<-|[]]]; [now apply Hcover|].
      apply existsb_exists in E. destruct E as (k & Hk & E).
      apply eqb_eq in E. congruence.
    + apply in_or_app. destruct Hx as [Hx|[<-|[]]]; [left; now apply Hcover|].
      right. now left.
Qed.

Lemma fold_groups_partition (l : list A) :
  forall seen groups,
    groups_partition eqb key seen groups ->
    groups_partition eqb key (seen ++ l)
      (fold_left (fun g a => Sql.add_to_group eqb key a g) l groups).
Proof.
  induction l as [|a r IH]; simpl; intros seen groups H.
  - now rewrite app_nil_r.
  - replace (seen ++ a :: r) with ((seen ++ [a]) ++ r)
      by (rewrite <- app_assoc; reflexivity).
    apply IH, add_to_group_partition, H.
Qed.

(** GROUP BY gives one group per key; a group holds exactly the rows of its
    key, in scan order, and is never empty; every row has its group. *)
Lemma group_by_partition (l : list A) :
  groups_partition eqb key l (Sql.group_by eqb key l).
Proof.
  apply (fold_groups_partition l [] []).
  split; [constructor | split]; intros ? [].
Qed.

Lemma add_to_group_size (a : A) (groups : list (K * list A)) :
  list_sum (map (fun g => List.length (snd g)) (Sql.add_to_group eqb key a groups))
  = S (list_sum (map (fun g => List.length (snd g)) groups)).
Proof.
  induction groups as [|[k m] rest IH]; simpl; [reflexivity|].
  destruct (eqb (key a) k); simpl.
  - rewrite length_app. simpl. lia.
  - rewrite IH. lia.
Qed.

(** The sizes of the groups add up to the number of rows. *)
Lemma group_by_sizes (l : list A) :
  list_sum (map (fun g => List.length (snd g)) (Sql.group_by eqb key l))
  = List.length l.
Proof.
  unfold Sql.group_by.
  assert (H : forall acc,
             list_sum (map (fun g => List.length (snd g))
                         (fold_left (fun g a => Sql.add_to_group eqb key a g) l acc))
             = (list_sum (map (fun g => List.length (snd g)) acc) + List.length l)%nat).
  { induction l as [|a r IH]; simpl; intros acc; [lia|].
    rewrite IH, add_to_group_size. lia. }
  rewrite H. reflexivity.
Qed.
End GroupPartition.



(** ** The joined rows of one user *)






Section SingleGroup.
Context {A K : Type} (eqb : K -> K -> bool) (key : A -> K).


End SingleGroup.




(** ** Per-user statistics *)

Lemma user_key_eqb_refl (k : Z * string) : user_key_eqb k k = true.
Proof. unfold user_key_eqb. now rewrite Z.eqb_refl, String.eqb_refl. Qed.

Lemma user_key_eqb_eq (a b : Z * string) : user_key_eqb a b = true <-> a = b.
Proof.
  unfold user_key_eqb. destruct a as [i e], b as [j f]; simpl.
  rewrite andb_true_iff, Z.eqb_eq, String.eqb_eq.
  split; [intros [-> ->]; reflexivity | intros [= -> ->]; auto].
Qed.

Lemma user_transaction_stats_unfold (user_id : Z) (db : Db) :
  user_transaction_stats user_id db
  = (match Sql.first (sql_user_stats user_id db) with
     | None => inl (HTTPError 404 "User not found")
     | Some row => inr row
     end, [SelectUserStats]).
Proof.
  unfold user_transaction_stats, bind, execute.
  destruct (Sql.first (sql_user_stats user_id db)); reflexivity.
Qed.

(** The joined rows of a user without transactions carry NULLs on the
    transaction side. *)
Lemma joined_rows_of_idle_user (db : Db) (user_id : Z) (r : User * option Transaction) :
  (forall t, In t (transactions db) -> t_user_id t <> user_id) ->
  In r (filter (fun r => u_id (fst r) =? user_id) (users_left_join_transactions db)) ->
  snd r = None.
Proof.
  intros Hnone Hr. apply filter_In in Hr. destruct Hr as [Hin Hid].
  destruct r as [u [t|]]; [|reflexivity]. exfalso.
  apply left_join_In in Hin. destruct Hin as (_ & Ht & Hon).
  simpl in Hid. apply Z.eqb_eq in Hid, Hon. apply (Hnone t Ht). congruence.
Qed.

(** The row [first()] returns is the row of one of the groups, and there is
    none exactly when no joined row passes the WHERE clause. *)
Lemma arranged_first {A} (moves : list nat) (l : list A) :
  (Sql.first (Sql.arrange moves l) = None /\ l = [])
  \/ exists x, In x l /\ Sql.first (Sql.arrange moves l) = Some x.
Proof.
  pose proof (arrange_perm moves l) as P.
  destruct (Sql.arrange moves l) as [|x r] eqn:E.
  - left. split; [reflexivity|]. now apply Permutation_nil.
  - right. exists x. split; [|reflexivity].
    eapply Permutation_in; [exact P | now left].
Qed.

Lemma user_stats_first_row (db : Db) (user_id : Z) :
  Sql.first (sql_user_stats user_id db) = None
  \/ exists g,
       In g (Sql.group_by user_key_eqb user_key
               (filter (fun r => u_id (fst r) =? user_id)
                  (users_left_join_transactions db)))
       /\ Sql.first (sql_user_stats user_id db)
          = Some (user_stats_row (division_scale (executor db)) user_id g).
Proof.
  unfold sql_user_stats.
  destruct (arranged_first (group_moves (executor db))
              (map (user_stats_row (division_scale (executor db)) user_id)
                 (Sql.group_by user_key_eqb user_key
                    (filter (fun r => u_id (fst r) =? user_id)
                       (users_left_join_transactions db)))))
    as [[E _]|(x & Hx & E)]; [now left|].
  right. apply in_map_iff in Hx. destruct Hx as (g & <- & Hg). now exists g.
Qed.

Lemma user_stats_rows_nil (db : Db) (user_id : Z) :
  Sql.first (sql_user_stats user_id db) = None ->
  filter (fun r => u_id (fst r) =? user_id) (users_left_join_transactions db) = [].
Proof.
  unfold sql_user_stats. intros E.
  destruct (arranged_first (group_moves (executor db))
              (map (user_stats_row (division_scale (executor db)) user_id)
                 (Sql.group_by user_key_eqb user_key
                    (filter (fun r => u_id (fst r) =? user_id)
                       (users_left_join_transactions db)))))
    as [[_ Hnil]|(x & _ & E')]; [|congruence].
  apply map_eq_nil in Hnil.
  destruct (filter (fun r => u_id (fst r) =? user_id) (users_left_join_transactions db))
    as [|r rest] eqn:Er; [reflexivity|].
  exfalso. revert Hnil. apply group_by_not_nil. discriminate.
Qed.



(** C4.  For an existing user without transactions the statistics are one
    row with zero count, zero total and zero pending and paid counts (and a
    zero average); for a user id without a user row the answer is 404. *)
Theorem user_stats_zero_row_or_not_found (db : Db) (user_id : Z) :
  ((exists u, In u (users db) /\ u_id u = user_id) ->
   (forall t, In t (transactions db) -> t_user_id t <> user_id) ->
   exists row,
     user_transaction_stats user_id db = (inr row, [SelectUserStats])
     /\ us_user_id row = user_id
     /\ us_transaction_count row = 0
     /\ us_total_amount row = 0%Q
     /\ us_pending_count row = 0
     /\ us_paid_count row = 0
     /\ (us_average_amount row == 0)%Q)
  /\ ((forall u, In u (users db) -> u_id u <> user_id) ->
      user_transaction_stats user_id db
      = (inl (HTTPError 404 "User not found"), [SelectUserStats])).
Proof.
  split.
  - intros (u & Hu & Hid) Hnone.
    rewrite user_transaction_stats_unfold.
    destruct (user_stats_first_row db user_id) as [E|(g & Hg & E)].
    + exfalso. apply (user_stats_rows_nil db user_id) in E.
      assert (Hin : In (u, None)
                      (filter (fun r => u_id (fst r) =? user_id)
                         (users_left_join_transactions db))).
      { apply filter_In. split.
        - apply left_join_unmatched; [exact Hu|].
          apply filter_nil_iff. intros t Ht. apply Z.eqb_neq.
          specialize (Hnone t Ht). congruence.
        - simpl. now apply Z.eqb_eq. }
      rewrite E in Hin. contradiction.
    + rewrite E. eexists. split; [reflexivity|].
      assert (Hnull : forall r, In r (snd g) -> snd r = None).
      { intros r Hr. apply (joined_rows_of_idle_user db user_id); [exact Hnone|].
        eapply group_by_members; eassumption. }
      assert (Hamounts : Sql.sum (joined_amounts (snd g)) = None).
      { apply sum_all_null. intros o Ho. apply in_map_iff in Ho.
        destruct Ho as (r & <- & Hr). now rewrite (Hnull r Hr). }
      unfold user_stats_row; simpl.
      split; [reflexivity|]. split.
      { apply count_col_all_null. intros o Ho. apply in_map_iff in Ho.
        destruct Ho as (r & <- & Hr). now rewrite (Hnull r Hr). }
      split; [now rewrite Hamounts|]. split.
      { apply sum_int_all_zero. intros o Ho. apply in_map_iff in Ho.
        destruct Ho as (r & <- & Hr). now rewrite (Hnull r Hr). }
      split.
      { apply sum_int_all_zero. intros o Ho. apply in_map_iff in Ho.
        destruct Ho as (r & <- & Hr). now rewrite (Hnull r Hr). }
      unfold Sql.avg. rewrite Hamounts. reflexivity.
  - intros Hnone. rewrite user_transaction_stats_unfold.
    destruct (user_stats_first_row db user_id) as [E|(g & Hg & E)];
      [now rewrite E|].
    exfalso.
    assert (Hrows : filter (fun r => u_id (fst r) =? user_id)
                      (users_left_join_transactions db) = []).
    { apply filter_nil_iff. intros [u ot] Hin. simpl. apply Z.eqb_neq.
      apply left_join_In in Hin. apply Hnone. tauto. }
    rewrite Hrows in Hg. contradiction.
Qed.

Lemma user_stats_zero_row_or_not_found_witness :
  (exists row,
     user_transaction_stats 1 idle_db = (inr row, [SelectUserStats])
     /\ us_user_id row = 1
     /\ us_transaction_count row = 0
     /\ us_total_amount row = 0%Q
     /\ us_pending_count row = 0
     /\ us_paid_count row = 0
     /\ (us_average_amount row == 0)%Q)
  /\ user_transaction_stats 9 idle_db
     = (inl (HTTPError 404 "User not found"), [SelectUserStats]).
Proof.
  split.
  - apply (user_stats_zero_row_or_not_found idle_db 1).
    + exists alice. split; [now left | reflexivity].
    + intros t [<-|[]]. discriminate.
  - apply (user_stats_zero_row_or_not_found idle_db 9).
    intros u [<-|[<-|[]]]; discriminate.
Defined.

(** ** Parameter validation *)

Lemma query_param_spec (d : QueryDecl) (raw : option Z) (db : Db) :
  query_param d raw db
  = if match raw with Some v => within d v | None => true end
    then (inr (Sql.coalesce raw (q_default d)), [])
    else (inl (HTTPError 422 "Unprocessable Entity"), []).
Proof.
  destruct raw as [v|]; simpl; [|reflexivity].
  destruct (within d v); reflexivity.
Qed.

Lemma bind_query_param {A} (d : QueryDecl) (raw : option Z) (k : Z -> Handler A) (db : Db) :
  bind (query_param d raw) k db
  = if match raw with Some v => within d v | None => true end
    then k (Sql.coalesce raw (q_default d)) db
    else (inl (HTTPError 422 "Unprocessable Entity"), []).
Proof.
  unfold bind. rewrite query_param_spec.
  destruct (match raw with Some v => within d v | None => true end); [|reflexivity].
  destruct (k (Sql.coalesce raw (q_default d)) db). reflexivity.
Qed.

Lemma fmap_bind_query_param {A B} (f : A -> B) (d : QueryDecl) (raw : option Z)
    (k : Z -> Handler A) (db : Db) :
  fmap f (bind (query_param d raw) k) db
  = if match raw with Some v => within d v | None => true end
    then fmap f (k (Sql.coalesce raw (q_default d))) db
    else (inl (HTTPError 422 "Unprocessable Entity"), []).
Proof.
  unfold fmap at 1. unfold bind at 1. rewrite bind_query_param.
  destruct (match raw with Some v => within d v | None => true end); reflexivity.
Qed.

Lemma within_in_range (d : QueryDecl) (lo : Z) (hi : option Z) (raw : option Z) :
  q_ge d = Some lo -> q_le d = hi ->
  match raw with Some v => within d v | None => true end = in_range lo hi raw.
Proof.
  intros Hge Hle. destruct raw as [v|]; [|reflexivity].
  unfold within, in_range. now rewrite Hge, Hle.
Qed.

Lemma fmap_execute_executed {R B} (f : R -> B) (s : Statement) (q : Db -> R) (db : Db) :
  fmap f (execute s q) db = (inr (f (q db)), [s]).
Proof. reflexivity. Qed.

(** C9.  A request with a numeric parameter outside its declared range is
    answered 422 and no statement is executed; a request within the ranges
    executes its statement and is not answered 422; an absent parameter
    stands for its declared default. *)
Theorem out_of_range_rejected_before_any_query (req : Request) (db : Db) :
  (declared_in_range req = false -> app req db = rejected)
  /\ (declared_in_range req = true ->
      executed (app req db) <> []
      /\ forall detail, response (app req db) <> inl (HTTPError 422 detail))
  /\ app req db = app (with_defaults req) db.
Proof.
  destruct req as [skip limit|user_id|user_id limit|skip limit pending paid|
                   |user_id|days|limit|limit|limit|limit];
    repeat match goal with o : option Z |- _ => destruct o end;
    unfold_route; split_bounds; unfold_route;
    split_answers; unfold_route;
    (split;
     [ intros H; first [discriminate H | reflexivity]
     | split;
       [ intros H;
         first [discriminate H | split; [discriminate | intros detail; discriminate]]
       | reflexivity ] ]).
Qed.

Lemma out_of_range_rejected_before_any_query_witness :
  declared_in_range (GetUsers None (Some 101)) = false
  /\ app (GetUsers None (Some 101)) idle_db = rejected.
Proof.
  split; [reflexivity|].
  destruct (out_of_range_rejected_before_any_query (GetUsers None (Some 101)) idle_db)
    as [H _].
  apply H. reflexivity.
Defined.

(** ** The summary row *)

Lemma first_limit_1 {A} (l : list A) : Sql.first (Sql.limit 1 l) = Sql.first l.
Proof. destruct l; reflexivity. Qed.

Lemma transaction_summary_unfold (db : Db) :
  transaction_summary db
  = (match Sql.first (sql_summary db) with
     | None => inl (HTTPError 500 "Failed to fetch summary")
     | Some row => inr row
     end, [SelectSummary]).
Proof.
  unfold transaction_summary, bind, execute.
  destruct (Sql.first (sql_summary db)); reflexivity.
Qed.

(** Whatever order the groups come out in, the row [first()] returns is the
    row of one of the currencies, and there is none exactly when the table
    is empty. *)
Lemma summary_first_row (db : Db) :
  (Sql.first (sql_summary db) = None /\ transactions db = [])
  \/ exists g,
       In g (Sql.group_by String.eqb t_currency (transactions db))
       /\ Sql.first (sql_summary db)
          = Some (summary_row (division_scale (executor db)) g).
Proof.
  unfold sql_summary. rewrite first_limit_1.
  destruct (arranged_first (group_moves (executor db))
              (map (summary_row (division_scale (executor db)))
                 (Sql.group_by String.eqb t_currency (transactions db))))
    as [[E Hnil]|(x & Hx & E)].
  - left. split; [exact E|]. apply map_eq_nil in Hnil.
    destruct (transactions db) as [|t r] eqn:Et; [reflexivity|].
    exfalso. revert Hnil. apply group_by_not_nil. discriminate.
  - right. apply in_map_iff in Hx. destruct Hx as (g & <- & Hg). now exists g.
Qed.


(** ** Rounded averages, exact totals *)




















(** ** The summary over an empty table *)

(** C2 fails on the code: GROUP BY over no rows yields no group, so the
    statement returns no row and the handler answers 500 instead of a row of
    zeros, whatever the users, the clock and the engine. *)
Theorem summary_of_empty_table_is_an_error (us : list User) (clock : Z)
    (engine : Executor) :
  transaction_summary (mkDb us [] clock engine)
  = (inl (HTTPError 500 "Failed to fetch summary"), [SelectSummary]).
Proof.
  rewrite transaction_summary_unfold. unfold sql_summary.
  cbn [transactions Sql.group_by fold_left map]. now rewrite arrange_nil.
Qed.

(** With at least one transaction the summary answers with a row. *)
Lemma summary_of_nonempty_table (db : Db) :
  transactions db <> [] ->
  exists row, transaction_summary db = (inr row, [SelectSummary]).
Proof.
  intros H. rewrite transaction_summary_unfold.
  destruct (summary_first_row db) as [[_ E]|(g & _ & E)]; [contradiction|].
  rewrite E. eexists. reflexivity.
Qed.

(** ** Top users: the rank of a user without transactions *)

Section GroupKeys.
Context {A K : Type} (eqb : K -> K -> bool) (key : A -> K).

Hypothesis eqb_refl : forall k, eqb k k = true.

Lemma add_to_group_keyed (a : A) (groups : list (K * list A)) :
  Forall (rows_share_key eqb key) groups -> Forall (rows_share_key eqb key) (Sql.add_to_group eqb key a groups).
Proof.
  induction 1 as [|[k members] rest Hk Hrest IH]; simpl.
  - constructor; [|constructor]. intros x [<-|[]]. apply eqb_refl.
  - destruct (eqb (key a) k) eqn:E.
    + constructor; [|exact Hrest].
      intros x Hx. simpl in Hx. apply in_app_or in Hx.
      destruct Hx as [Hx|[<-|[]]]; [now apply Hk | exact E].
    + constructor; assumption.
Qed.

Lemma add_to_group_holds (a : A) (groups : list (K * list A)) :
  exists g, In g (Sql.add_to_group eqb key a groups) /\ In a (snd g).
Proof.
  induction groups as [|[k members] rest IH]; simpl.
  - exists (key a, [a]). simpl. auto.
  - destruct (eqb (key a) k).
    + exists (k, members ++ [a]). split; [now left|].
      simpl. apply in_or_app. right. now left.
    + destruct IH as (g & Hg & Ha). exists g. split; [now right | exact Ha].
Qed.

Lemma add_to_group_keeps (a : A) (groups : list (K * list A)) (g : K * list A) (x : A) :
  In g groups -> In x (snd g) ->
  exists g', In g' (Sql.add_to_group eqb key a groups) /\ In x (snd g').
Proof.
  induction groups as [|[k members] rest IH]; simpl; [contradiction|].
  intros [<-|Hg] Hx.
  - destruct (eqb (key a) k).
    + exists (k, members ++ [a]). split; [now left|].
      simpl. apply in_or_app. now left.
    + exists (k, members). split; [now left | exact Hx].
  - destruct (eqb (key a) k).
    + exists g. split; [now right | exact Hx].
    + destruct (IH Hg Hx) as (g' & Hg' & Hx'). exists g'. split; [now right | exact Hx'].
Qed.

Lemma fold_groups_keyed (l : list A) :
  forall acc, Forall (rows_share_key eqb key) acc ->
    Forall (rows_share_key eqb key) (fold_left (fun g a => Sql.add_to_group eqb key a g) l acc).
Proof.
  induction l as [|a r IH]; simpl; intros acc H; [exact H|].
  apply IH, add_to_group_keyed, H.
Qed.

Lemma fold_groups_keeps (l : list A) :
  forall acc g x, In g acc -> In x (snd g) ->
    exists g', In g' (fold_left (fun g a => Sql.add_to_group eqb key a g) l acc)
               /\ In x (snd g').
Proof.
  induction l as [|a r IH]; simpl; intros acc g x Hg Hx.
  - exists g. auto.
  - destruct (add_to_group_keeps a acc g x Hg Hx) as (g' & Hg' & Hx').
    apply (IH _ g' x Hg' Hx').
Qed.

(** Every row is in some group, and the rows of a group share its key. *)
Lemma group_by_covers (l : list A) (x : A) :
  In x l -> exists g, In g (Sql.group_by eqb key l) /\ In x (snd g).
Proof.
  unfold Sql.group_by. generalize (@nil (K * list A)).
  induction l as [|a r IH]; simpl; intros acc Hx; [contradiction|].
  destruct Hx as [->|Hx].
  - destruct (add_to_group_holds x acc) as (g & Hg & Ha).
    apply (fold_groups_keeps r _ g x Hg Ha).
  - now apply IH.
Qed.

Lemma group_by_keyed (l : list A) : Forall (rows_share_key eqb key) (Sql.group_by eqb key l).
Proof. apply fold_groups_keyed. constructor. Qed.
End GroupKeys.

Lemma user_key_eqb_id (a b : Z * string) : user_key_eqb a b = true -> fst a = fst b.
Proof. unfold user_key_eqb. rewrite andb_true_iff, Z.eqb_eq. tauto. Qed.

Lemma desc_nulls_first_total (a b : option Q) :
  Sql.desc_nulls_first a b = true \/ Sql.desc_nulls_first b a = true.
Proof.
  destruct a as [x|], b as [y|]; simpl; auto.
  rewrite !Qle_bool_iff. destruct (Qlt_le_dec x y) as [H|H].
  - right. now apply Qlt_le_weak.
  - now left.
Qed.

Lemma desc_nulls_first_trans (a b c : option Q) :
  Sql.desc_nulls_first a b = true -> Sql.desc_nulls_first b c = true ->
  Sql.desc_nulls_first a c = true.
Proof.
  destruct a as [x|], b as [y|], c as [z|]; simpl; try congruence.
  rewrite !Qle_bool_iff. intros H1 H2. eapply Qle_trans; eassumption.
Qed.

(** ORDER BY total_amount DESC starts with a NULL total when there is one,
    whatever order the engine meets the rows in. *)
Lemma null_total_sorts_first (moves : list nat) (rows : list TopUserRow) (r : TopUserRow) :
  In r rows -> tr_total_amount r = None ->
  exists first rest,
    Sql.sorted_rows moves by_total_desc rows = first :: rest
    /\ tr_total_amount first = None.
Proof.
  intros Hin Hnull.
  pose proof (sorted_rows_sorted by_total_desc moves rows
                (fun a b => desc_nulls_first_total _ _)
                (fun a b c => desc_nulls_first_trans _ _ _)) as S.
  apply (sorted_rows_In by_total_desc moves) in Hin.
  destruct (Sql.sorted_rows moves by_total_desc rows) as [|h rest]; [contradiction|].
  exists h, rest. split; [reflexivity|].
  destruct Hin as [->|Hin]; [exact Hnull|].
  inversion S as [|? ? _ F]; subst. rewrite Forall_forall in F.
  specialize (F r Hin). unfold by_total_desc in F. rewrite Hnull in F.
  destruct (tr_total_amount h); [discriminate | reflexivity].
Qed.

(** The group of a user without transactions has a NULL total. *)
Lemma idle_user_group (db : Db) (u : User) :
  In u (users db) ->
  (forall t, In t (transactions db) -> t_user_id t <> u_id u) ->
  exists g,
    In g (Sql.group_by user_key_eqb user_key (users_left_join_transactions db))
    /\ tr_total_amount (top_user_row g) = None
    /\ tr_transaction_count (top_user_row g) = 0.
Proof.
  intros Hu Hnone.
  assert (Hrow : In (u, None) (users_left_join_transactions db)).
  { apply left_join_unmatched; [exact Hu|].
    apply filter_nil_iff. intros t Ht. apply Z.eqb_neq.
    specialize (Hnone t Ht). congruence. }
  destruct (group_by_covers user_key_eqb user_key _ _ Hrow) as (g & Hg & Hmem).
  pose proof (group_by_keyed user_key_eqb user_key user_key_eqb_refl
                (users_left_join_transactions db)) as Hkeyed.
  rewrite Forall_forall in Hkeyed. specialize (Hkeyed g Hg).
  assert (Hnull : forall r, In r (snd g) -> snd r = None).
  { intros [u' [t|]] Hr; [|reflexivity]. exfalso.
    pose proof (user_key_eqb_id _ _ (Hkeyed _ Hr)) as E1.
    pose proof (user_key_eqb_id _ _ (Hkeyed _ Hmem)) as E2.
    simpl in E1, E2.
    pose proof (group_by_members user_key_eqb user_key _ g _ Hg Hr) as Hj.
    apply left_join_In in Hj. destruct Hj as (_ & Ht & Hon).
    apply Z.eqb_eq in Hon. apply (Hnone t Ht). congruence. }
  exists g. split; [exact Hg|].
  unfold top_user_row; simpl. split.
  - rewrite sum_all_null; [reflexivity|].
    intros o Ho. apply in_map_iff in Ho. destruct Ho as (r & <- & Hr).
    now rewrite (Hnull r Hr).
  - apply count_col_all_null.
    intros o Ho. apply in_map_iff in Ho. destruct Ho as (r & <- & Hr).
    now rewrite (Hnull r Hr).
Qed.

(** C1 fails on the code: SUM over the NULL-extended row of a user without
    transactions is NULL, the statement has no COALESCE, and NULL sorts first
    in descending order.  Whenever such a user exists the first row carries a
    NULL total, and the handler answers 500 because the response model wants
    a number there. *)
Theorem idle_user_ranks_first_with_null_total (db : Db) (limit : Z) :
  1 <= limit <= 100 ->
  (exists u, In u (users db)
             /\ forall t, In t (transactions db) -> t_user_id t <> u_id u) ->
  (exists first rest,
      sql_top_users limit db = first :: rest /\ tr_total_amount first = None)
  /\ top_users_by_volume (Some limit) db
     = (inl (HTTPError 500 "Internal Server Error"), [SelectTopUsers]).
Proof.
  intros Hl (u & Hu & Hnone).
  destruct (idle_user_group db u Hu Hnone) as (g & Hg & Htotal & _).
  destruct (null_total_sorts_first (tie_moves (executor db) (Some limit))
              (map top_user_row
                 (Sql.group_by user_key_eqb user_key (users_left_join_transactions db)))
              (top_user_row g)) as (first & rest & Hsorted & Hfirst).
  { now apply in_map. }
  { exact Htotal. }
  assert (Hrows : sql_top_users limit db
                  = first :: firstn (Z.to_nat limit - 1) rest).
  { unfold sql_top_users, Sql.limit. rewrite Hsorted.
    destruct (Z.to_nat limit) as [|k] eqn:E; [lia|].
    simpl. now rewrite Nat.sub_0_r. }
  split.
  - eauto.
  - unfold top_users_by_volume. rewrite bind_query_param.
    replace (within limit_100 limit) with true.
    + unfold bind, execute. cbn [Sql.coalesce]. rewrite Hrows.
      cbn [as_top_users]. rewrite Hfirst. reflexivity.
    + symmetry. unfold within; simpl.
      apply andb_true_intro; split; apply Z.leb_le; lia.
Qed.

Lemma idle_user_ranks_first_with_null_total_witness :
  (exists first rest,
      sql_top_users 10 idle_db = first :: rest /\ tr_total_amount first = None)
  /\ top_users_by_volume (Some 10) idle_db
     = (inl (HTTPError 500 "Internal Server Error"), [SelectTopUsers]).
Proof.
  apply (idle_user_ranks_first_with_null_total idle_db 10); [lia|].
  exists alice. split; [now left|].
  intros t [<-|[]]. discriminate.
Defined.

(** On the sample dataset: the user without transactions comes first with a
    NULL total and the user with a positive total second. *)
Example top_users_rows_of_idle_db :
  sql_top_users 10 idle_db
  = [mkTopUserRow 1 "alice@example.com" None 0;
     mkTopUserRow 2 "bob@example.com" (Some 10.00%Q) 1].
Proof. reflexivity. Qed.

(** * Further properties of the handlers *)

(** ** Looking a user up *)

(** GET /users/{user_id} answers 404 exactly when no user row has the id;
    otherwise it answers with a row of the table carrying that id, the only
    one when ids are unique. *)
Theorem get_user_found_or_404 (db : Db) (user_id : Z) :
  ((forall u, In u (users db) -> u_id u <> user_id) ->
   get_user user_id db = (inl (HTTPError 404 "User not found"), [SelectUserById]))
  /\ (forall u, In u (users db) -> u_id u = user_id ->
      exists found,
        get_user user_id db = (inr found, [SelectUserById])
        /\ In found (users db)
        /\ u_id found = user_id
        /\ (NoDup (map u_id (users db)) -> found = u)).
Proof.
  unfold get_user, bind, execute, sql_get_user. split.
  - intros Hnone.
    assert (E : filter (fun u => u_id u =? user_id) (users db) = []).
    { apply filter_nil_iff. intros u Hu. apply Z.eqb_neq. now apply Hnone. }
    rewrite E. reflexivity.
  - intros u Hu Hid.
    assert (Hin : In u (filter (fun u => u_id u =? user_id) (users db))).
    { apply filter_In. split; [exact Hu | now apply Z.eqb_eq]. }
    destruct (filter (fun u => u_id u =? user_id) (users db)) as [|found rest] eqn:E;
      [contradiction|].
    assert (Hf : In found (users db) /\ u_id found = user_id).
    { assert (H : In found (filter (fun u => u_id u =? user_id) (users db)))
        by (rewrite E; now left).
      apply filter_In in H. rewrite Z.eqb_eq in H. exact H. }
    exists found. split; [reflexivity|]. split; [tauto|]. split; [tauto|].
    intros Hnd. destruct Hf as [Hfin Hfid].
    clear - Hnd Hu Hfin Hid Hfid. induction (users db) as [|a r IH]; [contradiction|].
    simpl in Hnd. inversion Hnd as [|? ? Hna Hnr]; subst.
    destruct Hu as [Hu|Hu], Hfin as [Hf|Hf].
    + congruence.
    + exfalso. apply Hna. subst a. rewrite <- Hfid. now apply in_map.
    + exfalso. apply Hna. subst a. rewrite Hfid. now apply in_map.
    + now apply IH.
Qed.

Lemma get_user_found_or_404_witness :
  get_user 9 idle_db = (inl (HTTPError 404 "User not found"), [SelectUserById])
  /\ exists found,
       get_user 2 idle_db = (inr found, [SelectUserById])
       /\ In found (users idle_db)
       /\ u_id found = 2
       /\ (NoDup (map u_id (users idle_db)) -> found = bob).
Proof.
  split.
  - apply (get_user_found_or_404 idle_db 9).
    intros u [<-|[<-|[]]]; discriminate.
  - destruct (get_user_found_or_404 idle_db 2) as [_ H].
    apply (H bob); [simpl; tauto | reflexivity].
Defined.

(** ** The pending listing *)

(** GET /transactions/pending holds only transactions with [pending = true],
    whatever their [paid] flag, newest first and at most [limit] of them; a
    pending transaction is missing only when the page is full of rows created
    no earlier than it. *)
Theorem pending_listing_first_limit_rows (db : Db) (limit : Z) :
  1 <= limit <= 500 ->
  exists rows,
    get_pending_transactions (Some limit) db = (inr rows, [SelectPending])
    /\ Z.of_nat (List.length rows) <= limit
    /\ StronglySorted (fun a b => t_created b <= t_created a) rows
    /\ (forall t, In t rows -> In t (transactions db) /\ t_pending t = true)
    /\ (forall t, In t (transactions db) -> t_pending t = true ->
          In t rows
          \/ (Z.of_nat (List.length rows) = limit
              /\ forall r, In r rows -> t_created t <= t_created r)).
Proof.
  intros Hl. exists (sql_pending limit db).
  split.
  { unfold get_pending_transactions, bind. now rewrite limit_500_runs. }
  destruct (newest_first_limit (tie_moves (executor db) (Some limit)) limit
              (fun t => Bool.eqb (t_pending t) true) (transactions db))
    as (Hlen & Hsorted & Hsound & Hcomplete); [lia|].
  unfold sql_pending.
  split; [exact Hlen|]. split; [exact Hsorted|]. split.
  - intros t Ht. destruct (Hsound t Ht) as [Hin Hp].
    apply eqb_prop in Hp. tauto.
  - intros t Hin Hp. apply Hcomplete; [exact Hin|]. rewrite Hp. reflexivity.
Qed.

Lemma pending_listing_first_limit_rows_witness :
  exists rows,
    get_pending_transactions (Some 1) flags_db = (inr rows, [SelectPending])
    /\ Z.of_nat (List.length rows) <= 1
    /\ StronglySorted (fun a b => t_created b <= t_created a) rows
    /\ (forall t, In t rows -> In t (transactions flags_db) /\ t_pending t = true)
    /\ (forall t, In t (transactions flags_db) -> t_pending t = true ->
          In t rows
          \/ (Z.of_nat (List.length rows) = 1
              /\ forall r, In r rows -> t_created t <= t_created r)).
Proof. apply (pending_listing_first_limit_rows flags_db 1). lia. Defined.

(** ** The dedicated listings are instances of the filtered listing *)

Lemma offset_zero {A} (l : list A) : Sql.offset 0 l = Some l.
Proof. reflexivity. Qed.

Lemma response_bind_query_param {A} (d : QueryDecl) (raw : option Z)
    (k : Z -> Handler A) (db : Db) :
  response (bind (query_param d raw) k db)
  = if match raw with Some v => within d v | None => true end
    then response (k (Sql.coalesce raw (q_default d)) db)
    else inl (HTTPError 422 "Unprocessable Entity").
Proof.
  rewrite bind_query_param.
  destruct (match raw with Some v => within d v | None => true end); reflexivity.
Qed.

(** For every [limit], supplied or not, valid or not, the pending listing
    answers what the filtered listing answers for [pending = true] from
    offset 0, and the unpaid listing what it answers for [pending = false]
    and [paid = false]. *)
Theorem dedicated_listings_are_filtered_listings (db : Db) (limit : option Z) :
  response (get_pending_transactions limit db)
  = response (list_transactions None limit (Some true) None db)
  /\ response (unpaid_transactions limit db)
     = response (list_transactions None limit (Some false) (Some false) db).
Proof.
  unfold get_pending_transactions, unpaid_transactions, list_transactions.
  rewrite !(response_bind_query_param skip_decl None).
  cbn [Sql.coalesce q_default skip_decl].
  rewrite !response_bind_query_param.
  destruct (match limit with Some v => within limit_500 v | None => true end);
    [|split; reflexivity].
  unfold execute, try_execute, response, sql_pending, sql_unpaid,
    sql_list_transactions; cbn [fst].
  rewrite !offset_zero, !filter_where_clauses, !Z.add_0_r. cbn [option_map fst].
  split; do 3 f_equal.
  apply filter_ext. intros t. unfold satisfies. now rewrite andb_true_r.
Qed.

(** ** Consecutive pages *)

Lemma firstn_add {A} (a b : nat) (l : list A) :
  firstn (a + b) l = firstn a l ++ firstn b (skipn a l).
Proof.
  revert l. induction a as [|a IH]; intros [|x l]; simpl;
    try reflexivity.
  - now rewrite firstn_nil.
  - now rewrite IH.
Qed.

Lemma skipn_add {A} (a b : nat) (l : list A) :
  skipn (a + b) l = skipn b (skipn a l).
Proof.
  revert l. induction a as [|a IH]; intros [|x l]; simpl;
    try reflexivity.
  - now rewrite skipn_nil.
  - apply IH.
Qed.

Lemma pages_concat {A} (skip l1 l2 : Z) (ordered : list A) :
  0 <= skip -> 0 <= l1 -> 0 <= l2 ->
  Sql.limit (l1 + l2) (skipn (Z.to_nat skip) ordered)
  = Sql.limit l1 (skipn (Z.to_nat skip) ordered)
    ++ Sql.limit l2 (skipn (Z.to_nat (skip + l1)) ordered).
Proof.
  intros Hs H1 H2. unfold Sql.limit.
  rewrite !Z2Nat.inj_add by lia.
  now rewrite firstn_add, skipn_add.
Qed.

Lemma users_order_fixed (moves1 moves2 : list nat) (l : list User) :
  NoDup (map u_id l) ->
  Sql.sorted_rows moves1 by_id_asc l = Sql.sorted_rows moves2 by_id_asc l.
Proof.
  intros Hnd.
  apply (sorted_rows_key_deterministic u_id by_id_asc moves1 moves2 l l
           by_id_asc_spec Hnd (Permutation_refl l)).
Qed.

Lemma transactions_order_fixed (moves1 moves2 : list nat) (f : Transaction -> bool)
    (l : list Transaction) :
  NoDup (map t_created l) ->
  Sql.sorted_rows moves1 by_created_desc (filter f l)
  = Sql.sorted_rows moves2 by_created_desc (filter f l).
Proof.
  intros Hnd.
  apply (sorted_rows_key_deterministic (fun t => - t_created t) by_created_desc
           moves1 moves2 (filter f l) (filter f l)).
  - intros x y. apply by_created_desc_spec.
  - now apply nodup_created_filter.
  - apply Permutation_refl.
Qed.

(** When no two rows share the ordering key and the offsets fit a bigint,
    the page after a page continues it: the page of [limit1] rows at [skip]
    followed by the page of [limit2] rows at [skip + limit1] is the page of
    [limit1 + limit2] rows at [skip].  No row is repeated or lost between
    the two, for users and for transactions under any filters. *)
Theorem consecutive_pages_concatenate (db : Db) (skip limit1 limit2 : Z) :
  0 <= skip -> 1 <= limit1 -> 1 <= limit2 ->
  skip + limit1 <= Sql.max_bigint ->
  (limit1 + limit2 <= 100 ->
   NoDup (map u_id (users db)) ->
   exists p1 p2,
     response (list_users (Some skip) (Some limit1) db) = inr p1
     /\ response (list_users (Some (skip + limit1)) (Some limit2) db) = inr p2
     /\ response (list_users (Some skip) (Some (limit1 + limit2)) db) = inr (p1 ++ p2))
  /\ (limit1 + limit2 <= 500 ->
      NoDup (map t_created (transactions db)) ->
      forall pending paid,
      exists p1 p2,
        response (list_transactions (Some skip) (Some limit1) pending paid db) = inr p1
        /\ response (list_transactions (Some (skip + limit1)) (Some limit2) pending paid db)
           = inr p2
        /\ response (list_transactions (Some skip) (Some (limit1 + limit2)) pending paid db)
           = inr (p1 ++ p2)).
Proof.
  intros Hs H1 H2 Hmax. split.
  - intros Hb Hnd. rewrite !list_users_runs by lia.
    do 2 eexists. split; [reflexivity|]. split; [reflexivity|].
    unfold response; cbn [fst]. f_equal.
    rewrite (users_order_fixed
               (tie_moves (executor db) (Some (limit2 + (skip + limit1))))
               (tie_moves (executor db) (Some (limit1 + skip))) _ Hnd).
    rewrite (users_order_fixed
               (tie_moves (executor db) (Some (limit1 + limit2 + skip)))
               (tie_moves (executor db) (Some (limit1 + skip))) _ Hnd).
    apply pages_concat; lia.
  - intros Hb Hnd pending paid. rewrite !list_transactions_runs by lia.
    do 2 eexists. split; [reflexivity|]. split; [reflexivity|].
    unfold response; cbn [fst]. f_equal.
    rewrite (transactions_order_fixed
               (tie_moves (executor db) (Some (limit2 + (skip + limit1))))
               (tie_moves (executor db) (Some (limit1 + skip))) _ _ Hnd).
    rewrite (transactions_order_fixed
               (tie_moves (executor db) (Some (limit1 + limit2 + skip)))
               (tie_moves (executor db) (Some (limit1 + skip))) _ _ Hnd).
    apply pages_concat; lia.
Qed.

Lemma consecutive_pages_concatenate_witness :
  (exists p1 p2,
     response (list_users (Some 1) (Some 1) crowd_db) = inr p1
     /\ response (list_users (Some (1 + 1)) (Some 2) crowd_db) = inr p2
     /\ response (list_users (Some 1) (Some (1 + 2)) crowd_db) = inr (p1 ++ p2))
  /\ (exists p1 p2,
        response (list_transactions (Some 1) (Some 2) None None flags_db) = inr p1
        /\ response (list_transactions (Some (1 + 2)) (Some 2) None None flags_db) = inr p2
        /\ response (list_transactions (Some 1) (Some (2 + 2)) None None flags_db)
           = inr (p1 ++ p2)).
Proof.
  split.
  - destruct (consecutive_pages_concatenate crowd_db 1 1 2) as [H _];
      [lia | lia | lia | unfold Sql.max_bigint; lia |].
    apply H; [lia|]. simpl. repeat constructor; simpl; intuition discriminate.
  - destruct (consecutive_pages_concatenate flags_db 1 2 2) as [_ H];
      [lia | lia | lia | unfold Sql.max_bigint; lia |].
    apply H; [lia|]. simpl. repeat constructor; simpl; intuition discriminate.
Defined.


(** ** Which errors a route can answer *)

Lemma offset_fails_only_beyond {A} (n : Z) (l : list A) :
  (0 <=? n) = true -> Sql.offset n l = None -> Sql.max_bigint < n.
Proof.
  intros H E. unfold Sql.offset in E. rewrite H in E.
  destruct (n <=? Sql.max_bigint) eqn:E1; [discriminate|].
  now apply Z.leb_gt.
Qed.

Lemma sql_list_users_fails_only_beyond (limit skip : Z) (db : Db) :
  (0 <=? skip) = true -> sql_list_users limit skip db = None -> Sql.max_bigint < skip.
Proof.
  intros H E. unfold sql_list_users in E.
  destruct (Sql.offset skip _) eqn:Eo; [discriminate|].
  eapply offset_fails_only_beyond; eassumption.
Qed.

Lemma sql_list_transactions_fails_only_beyond (clauses : list (Transaction -> bool))
    (limit skip : Z) (db : Db) :
  (0 <=? skip) = true -> sql_list_transactions clauses limit skip db = None ->
  Sql.max_bigint < skip.
Proof.
  intros H E. unfold sql_list_transactions in E.
  destruct (Sql.offset skip _) eqn:Eo; [discriminate|].
  eapply offset_fails_only_beyond; eassumption.
Qed.

(** An error answer is 422 for a parameter outside its range (and then no
    statement ran), 404 only from the two lookups by user id, and 500 only
    from the summary, from the top-users report and from the two paged
    listings when [skip] exceeds the largest bigint; the other listings, the
    daily summary and the suspicious report never fail once their parameters
    are valid.  No route executes more than one statement. *)
Theorem error_answers_by_route (req : Request) (db : Db) :
  (Z.of_nat (List.length (executed (app req db))) <= 1)
  /\ forall status detail,
       response (app req db) = inl (HTTPError status detail) ->
       (status = 422 /\ declared_in_range req = false /\ executed (app req db) = [])
       \/ (status = 404
           /\ exists user_id, req = GetUser user_id \/ req = GetUserStats user_id)
       \/ (status = 500
           /\ (req = GetSummary
               \/ (exists limit, req = GetTopUsers limit)
               \/ (exists skip limit,
                     Sql.max_bigint < skip /\ req = GetUsers (Some skip) limit)
               \/ (exists skip limit pending paid,
                     Sql.max_bigint < skip
                     /\ req = GetTransactions (Some skip) limit pending paid))).
Proof.
  destruct req as [skip limit|user_id|user_id limit|skip limit pending paid|
                   |user_id|days|limit|limit|limit|limit];
    repeat match goal with o : option Z |- _ => destruct o end;
    unfold_route;
    repeat match goal with
           | |- context [?a <=? ?b] =>
               first [ is_var a; let E := fresh "Ebound" in destruct (a <=? b) eqn:E
                     | is_var b; let E := fresh "Ebound" in destruct (a <=? b) eqn:E
                     | let v := eval vm_compute in (a <=? b) in
                       change (a <=? b) with v ]
           end;
    unfold_route;
    repeat match goal with
           | |- context [Sql.first ?x] => destruct (Sql.first x)
           | |- context [as_top_users ?x] => destruct (as_top_users x)
           | |- context [sql_list_users ?a ?b ?c] =>
               let E := fresh "Erows" in destruct (sql_list_users a b c) eqn:E
           | |- context [sql_list_transactions ?w ?a ?b ?c] =>
               let E := fresh "Erows" in destruct (sql_list_transactions w a b c) eqn:E
           end;
    unfold_route;
    (split; [simpl; lia|]);
    intros status detail H; try discriminate H;
    injection H as <- <-;
    first [ left; repeat split; reflexivity
          | right; left; split; [reflexivity|]; eexists;
            first [left; reflexivity | right; reflexivity]
          | right; right; split; [reflexivity|];
            first [ left; reflexivity
                  | right; left; eexists; reflexivity
                  | right; right; left; do 2 eexists; split; [|reflexivity];
                    eapply sql_list_users_fails_only_beyond; [|eassumption];
                    first [assumption | reflexivity]
                  | right; right; right; do 4 eexists; split; [|reflexivity];
                    eapply sql_list_transactions_fails_only_beyond; [|eassumption];
                    first [assumption | reflexivity] ]
          | exfalso;
            match goal with
            | E : sql_list_users _ _ _ = None |- _ =>
                apply sql_list_users_fails_only_beyond in E; [|reflexivity];
                unfold Sql.max_bigint in E; lia
            | E : sql_list_transactions _ _ _ _ = None |- _ =>
                apply sql_list_transactions_fails_only_beyond in E; [|reflexivity];
                unfold Sql.max_bigint in E; lia
            end ].
Qed.

Lemma error_answers_by_route_witness :
  ((422 = 422 /\ declared_in_range (GetDaily (Some 0)) = false
    /\ executed (app (GetDaily (Some 0)) idle_db) = [])
   \/ (422 = 404
       /\ exists user_id,
            GetDaily (Some 0) = GetUser user_id \/ GetDaily (Some 0) = GetUserStats user_id)
   \/ (422 = 500
       /\ (GetDaily (Some 0) = GetSummary
           \/ (exists limit, GetDaily (Some 0) = GetTopUsers limit)
           \/ (exists skip limit,
                 Sql.max_bigint < skip /\ GetDaily (Some 0) = GetUsers (Some skip) limit)
           \/ (exists skip limit pending paid,
                 Sql.max_bigint < skip
                 /\ GetDaily (Some 0) = GetTransactions (Some skip) limit pending paid))))
  /\ response (app (GetUsers (Some 9223372036854775808) None) idle_db)
     = inl (HTTPError 500 "Internal Server Error")
  /\ ((500 = 422 /\ declared_in_range (GetUsers (Some 9223372036854775808) None) = false
       /\ executed (app (GetUsers (Some 9223372036854775808) None) idle_db) = [])
      \/ (500 = 404
          /\ exists user_id,
               GetUsers (Some 9223372036854775808) None = GetUser user_id
               \/ GetUsers (Some 9223372036854775808) None = GetUserStats user_id)
      \/ (500 = 500
          /\ (GetUsers (Some 9223372036854775808) None = GetSummary
              \/ (exists limit, GetUsers (Some 9223372036854775808) None = GetTopUsers limit)
              \/ (exists skip limit,
                    Sql.max_bigint < skip
                    /\ GetUsers (Some 9223372036854775808) None = GetUsers (Some skip) limit)
              \/ (exists skip limit pending paid,
                    Sql.max_bigint < skip
                    /\ GetUsers (Some 9223372036854775808) None
                       = GetTransactions (Some skip) limit pending paid)))).
Proof.
  split; [|split].
  - destruct (error_answers_by_route (GetDaily (Some 0)) idle_db) as [_ H].
    apply (H 422 "Unprocessable Entity"%string). reflexivity.
  - reflexivity.
  - destruct (error_answers_by_route (GetUsers (Some 9223372036854775808) None) idle_db)
      as [_ H].
    apply (H 500 "Internal Server Error"%string). reflexivity.
Defined.

(** ** The summary covers one currency *)




(** ** Per-user statistics count the user's transactions *)



(** ** Top users when every user has transactions *)

Lemma sum_with_value (l : list (option Q)) (q : Q) :
  In (Some q) l -> Sql.sum l <> None.
Proof.
  induction l as [|[x|] r IH]; simpl; [contradiction | discriminate |].
  intros [H|H]; [discriminate | now apply IH].
Qed.

Lemma count_col_with_value {A} (l : list (option A)) (a : A) :
  In (Some a) l -> 1 <= Sql.count_col l.
Proof.
  assert (Hpos : forall l' : list (option A), 0 <= Sql.count_col l').
  { induction l' as [|[x|] r IH]; cbn [Sql.count_col]; lia. }
  induction l as [|[x|] r IH]; cbn [Sql.count_col In]; [contradiction | |].
  - intros _. specialize (Hpos r). lia.
  - intros [H|H]; [discriminate | now apply IH].
Qed.

Lemma as_top_users_rows (rows : list TopUserRow) :
  forall out,
    as_top_users rows = Some out ->
    Forall2 (fun r o =>
               tr_total_amount r = Some (tu_total_amount o)
               /\ tr_user_id r = tu_user_id o
               /\ tr_email r = tu_email o
               /\ tr_transaction_count r = tu_transaction_count o) rows out.
Proof.
  induction rows as [|r rest IH]; simpl; intros out H.
  - injection H as <-. constructor.
  - destruct (tr_total_amount r) as [total|] eqn:E; [|discriminate].
    destruct (as_top_users rest) as [out'|]; [|discriminate].
    injection H as <-. constructor; [simpl; auto | now apply IH].
Qed.

Lemma as_top_users_total (rows : list TopUserRow) :
  (forall r, In r rows -> tr_total_amount r <> None) ->
  exists out, as_top_users rows = Some out.
Proof.
  induction rows as [|r rest IH]; simpl; intros H; [now eexists|].
  destruct (tr_total_amount r) as [total|] eqn:E.
  - destruct IH as [out Hout]; [intros x Hx; apply H; now right|].
    rewrite Hout. now eexists.
  - exfalso. apply (H r); [now left | exact E].
Qed.

Lemma forall2_sorted {A B} (R : A -> B -> Prop) (P : A -> A -> Prop) (Q' : B -> B -> Prop)
    (l : list A) (l' : list B) :
  (forall a a' b b', R a b -> R a' b' -> P a a' -> Q' b b') ->
  Forall2 R l l' -> StronglySorted P l -> StronglySorted Q' l'.
Proof.
  intros H F. induction F as [|a b r r' Hab F IH]; intros S; constructor.
  - apply IH. now inversion S.
  - inversion S as [|? ? _ Fa]; subst. rewrite Forall_forall in *.
    intros b' Hb'. clear IH S.
    induction F as [|a' b'' s s' Hab' F IH]; [contradiction|].
    destruct Hb' as [<-|Hb'].
    + apply (H a a' b b''); auto. apply Fa. now left.
    + apply IH; [|exact Hb']. intros x Hx. apply Fa. now right.
Qed.

Lemma forall2_In_r {A B} (R : A -> B -> Prop) (l : list A) (l' : list B) (b : B) :
  Forall2 R l l' -> In b l' -> exists a, In a l /\ R a b.
Proof.
  induction 1 as [|a b' r r' Hab F IH]; [contradiction|].
  intros [<-|Hb].
  - exists a. split; [now left | exact Hab].
  - destruct (IH Hb) as (x & Hx & Hr). exists x. split; [now right | exact Hr].
Qed.

(** The group of a user of a dataset where every user has a transaction. *)
Lemma active_user_group (db : Db) (g : (Z * string) * list (User * option Transaction)) :
  (forall u, In u (users db) ->
             exists t, In t (transactions db) /\ t_user_id t = u_id u) ->
  In g (Sql.group_by user_key_eqb user_key (users_left_join_transactions db)) ->
  tr_total_amount (top_user_row g) <> None
  /\ 1 <= tr_transaction_count (top_user_row g)
  /\ exists u, In u (users db) /\ fst g = (u_id u, u_email u).
Proof.
  intros Hactive Hg.
  pose proof (group_by_partition user_key_eqb user_key user_key_eqb_eq
                (users_left_join_transactions db)) as (_ & Hcontent & _).
  destruct (Hcontent g Hg) as [Hm Hne].
  destruct (snd g) as [|[u ot] m] eqn:E; [congruence|].
  assert (Hrow : In (u, ot) (filter (fun x => user_key_eqb (user_key x) (fst g))
                               (users_left_join_transactions db)))
    by (rewrite <- Hm; now left).
  apply filter_In in Hrow. destruct Hrow as [Hj Hk].
  apply user_key_eqb_eq in Hk.
  apply left_join_In in Hj. destruct Hj as [Hu Hot].
  destruct ot as [t|].
  - unfold top_user_row. cbn [tr_total_amount tr_transaction_count]. rewrite E.
    split; [|split].
    + destruct (Sql.sum (joined_amounts ((u, Some t) :: m))) as [s|] eqn:Es;
        [discriminate|].
      exfalso. revert Es. apply (sum_with_value _ (t_amount t)). now left.
    + apply (count_col_with_value _ (t_id t)). now left.
    + exists u. split; [exact Hu | now rewrite <- Hk].
  - exfalso. destruct (Hactive u Hu) as (t & Ht & Hid).
    rewrite filter_nil_iff in Hot. specialize (Hot t Ht).
    apply Z.eqb_neq in Hot. congruence.
Qed.

(** When every user has at least one transaction the top-users report
    succeeds: at most [limit] rows in non-increasing total, each the row of a
    user of the table with that user's email and a positive count. *)
Theorem top_users_ranked_when_all_active (db : Db) (limit : Z) :
  1 <= limit <= 100 ->
  (forall u, In u (users db) ->
             exists t, In t (transactions db) /\ t_user_id t = u_id u) ->
  exists rows,
    top_users_by_volume (Some limit) db = (inr rows, [SelectTopUsers])
    /\ Z.of_nat (List.length rows) <= limit
    /\ StronglySorted (fun a b => (tu_total_amount b <= tu_total_amount a)%Q) rows
    /\ (forall r, In r rows ->
          1 <= tu_transaction_count r
          /\ exists u, In u (users db)
                       /\ tu_user_id r = u_id u /\ tu_email r = u_email u).
Proof.
  intros Hl Hactive.
  assert (Hrows : forall r, In r (sql_top_users limit db) ->
                    exists g,
                      In g (Sql.group_by user_key_eqb user_key
                              (users_left_join_transactions db))
                      /\ r = top_user_row g).
  { intros r Hr. unfold sql_top_users in Hr.
    apply limit_In, sorted_rows_In, in_map_iff in Hr.
    destruct Hr as (g & <- & Hg). now exists g. }
  destruct (as_top_users_total (sql_top_users limit db)) as [out Hout].
  { intros r Hr. destruct (Hrows r Hr) as (g & Hg & ->).
    now apply (active_user_group db g Hactive Hg). }
  pose proof (as_top_users_rows _ _ Hout) as F.
  exists out. split; [|split; [|split]].
  - unfold top_users_by_volume. rewrite bind_query_param.
    replace (within limit_100 limit) with true.
    + unfold bind, execute. cbn [Sql.coalesce]. now rewrite Hout.
    + symmetry. unfold within; simpl.
      apply andb_true_intro; split; apply Z.leb_le; lia.
  - rewrite <- (Forall2_length F). unfold sql_top_users. apply limit_length; lia.
  - eapply (forall2_sorted _ (fun a b => by_total_desc a b = true)); [|exact F|].
    + intros a a' b b' [Ea _] [Ea' _] Hp.
      unfold by_total_desc in Hp. rewrite Ea, Ea' in Hp.
      simpl in Hp. now apply Qle_bool_iff.
    + unfold sql_top_users. apply sorted_firstn.
      apply (sorted_rows_sorted by_total_desc _ _
               (fun a b => desc_nulls_first_total _ _)
               (fun a b c => desc_nulls_first_trans _ _ _)).
  - intros r Hr. destruct (forall2_In_r _ _ _ _ F Hr) as (row & Hrow & Ht & Hi & He & Hc).
    destruct (Hrows row Hrow) as (g & Hg & ->).
    destruct (active_user_group db g Hactive Hg) as (_ & Hcount & u & Hu & Hk).
    split; [now rewrite <- Hc|].
    exists u. split; [exact Hu|].
    rewrite <- Hi, <- He. unfold top_user_row; simpl. now rewrite Hk.
Qed.

Lemma top_users_ranked_when_all_active_witness :
  exists rows,
    top_users_by_volume (Some 10) active_db = (inr rows, [SelectTopUsers])
    /\ Z.of_nat (List.length rows) <= 10
    /\ StronglySorted (fun a b => (tu_total_amount b <= tu_total_amount a)%Q) rows
    /\ (forall r, In r rows ->
          1 <= tu_transaction_count r
          /\ exists u, In u (users active_db)
                       /\ tu_user_id r = u_id u /\ tu_email r = u_email u).
Proof.
  apply (top_users_ranked_when_all_active active_db 10); [lia|].
  intros u [<-|[<-|[]]].
  - exists (sample_tx "a1" 1 10.004 false true 101). simpl. tauto.
  - exists (sample_tx "b1" 2 20 false true 102). simpl. tauto.
Defined.

(** ** The percentile lies within the amounts *)

(** No flagged transaction has the smallest amount of the table: every
    returned amount is strictly above it.  When all transactions have the
    same amount nothing is flagged. *)
Theorem suspicious_rows_exceed_smallest_amount (db : Db) (limit : Z) (t : Transaction) :
  1 <= limit <= 500 ->
  In t (transactions db) ->
  (forall t', In t' (transactions db) -> (t_amount t <= t_amount t')%Q) ->
  exists rows,
    suspicious_transactions (Some limit) db = (inr rows, [SelectSuspicious])
    /\ (forall r, In r rows -> (t_amount t < st_amount r)%Q)
    /\ ((forall t', In t' (transactions db) -> (t_amount t' == t_amount t)%Q) ->
        rows = []).
Proof.
  intros Hl Hin Hmin. exists (sql_suspicious limit db).
  split.
  { unfold suspicious_transactions, bind. now rewrite limit_500_runs. }
  assert (Habove : forall r, In r (sql_suspicious limit db) ->
                     exists t', In t' (transactions db) /\ r = flag t'
                                /\ (t_amount t < t_amount t')%Q).
  { intros r Hr.
    destruct (suspicious_rows db limit r Hr)
      as (t' & p & Hin' & -> & _ & Hlt & _ & lowest & Hlow & Hle).
    exists t'. split; [exact Hin'|]. split; [reflexivity|].
    destruct (Qlt_le_dec (t_amount t) (t_amount t')) as [H|H]; [exact H|].
    exfalso.
    pose proof (to_float8_mono (executor db) _ _ H) as H1.
    pose proof (to_float8_mono (executor db) _ _ (Hmin lowest Hlow)) as H2.
    lra. }
  split.
  - intros r Hr. destruct (Habove r Hr) as (t' & _ & -> & Hlt). exact Hlt.
  - intros Heq. destruct (sql_suspicious limit db) as [|r rest]; [reflexivity|].
    exfalso. destruct (Habove r (or_introl eq_refl)) as (t' & Hin' & _ & Hlt).
    specialize (Heq t' Hin'). rewrite Heq in Hlt. now apply Qlt_irrefl in Hlt.
Qed.

Lemma suspicious_rows_exceed_smallest_amount_witness :
  exists rows,
    suspicious_transactions (Some 50) twelve_db = (inr rows, [SelectSuspicious])
    /\ (forall r, In r rows -> (t_amount (numbered_tx "n01" 1) < st_amount r)%Q)
    /\ ((forall t', In t' (transactions twelve_db) ->
                    (t_amount t' == t_amount (numbered_tx "n01" 1))%Q) ->
        rows = []).
Proof.
  apply (suspicious_rows_exceed_smallest_amount twelve_db 50 (numbered_tx "n01" 1)).
  - lia.
  - simpl. tauto.
  - intros t' Ht'. simpl in Ht'.
    repeat (destruct Ht' as [<-|Ht']; [discriminate|]). contradiction.
Defined.
